(** * Poo_practica: field cleaners, sale predicates and sales reconciliation

    A shallow embedding of
      - [src/cleaners/field_cleaners/email_cleaner.py],
      - [src/cleaners/field_cleaners/phone_cleaner.py],
      - [src/validators/sales_validator.py],
      - [src/cleaners/sales_cleaner.py],
    with the properties the specification states about them. *)

From Stdlib Require Import ZArith NArith List Lia Bool Ascii String Floats.
From stdpp Require Import base option list strings gmap.

Local Open Scope N_scope.

(** ** Python strings

    A Python [str] is a sequence of Unicode code points.  The cleaners use
    [str.strip], [str.lower], [str.lstrip("0")], [str.startswith] and the [re]
    module; what these do outside ASCII is fixed by the Unicode tables of the
    interpreter, which the model takes as an interface ([Unicode]) together
    with the facts about them that the proofs rely on ([UnicodeSpec]). *)
Module PyStr.

Definition char := N.
Definition str := list char.

(** A literal of the source, as code points. *)
Definition str_of (s : string) : str :=
  map N_of_ascii (list_ascii_of_string s).

Definition in_range (lo hi : N) (c : char) : bool := (lo <=? c) && (c <=? hi).

Definition is_upper_az (c : char) : bool := in_range 65 90 c.
Definition is_lower_az (c : char) : bool := in_range 97 122 c.
Definition is_digit_09 (c : char) : bool := in_range 48 57 c.

(** [str.lower] on an ASCII code point. *)
Definition ascii_lower (c : char) : char := if is_upper_az c then c + 32 else c.

(** The ASCII code points [str.strip] removes: TAB, LF, VT, FF, CR, the four
    separators FS, GS, RS, US, and the space. *)
Definition ascii_space (c : char) : bool := in_range 9 13 c || in_range 28 32 c.

(** The interpreter's Unicode tables.
    - [is_space c]: [c] is whitespace for [str.strip];
    - [is_decimal c]: [c] is matched by [\d] in a [str] pattern (category Nd);
    - [lower_full pre c post]: what [str.lower] writes for the code point [c]
      standing between [pre] and [post] (one to three code points; the context
      only matters for the final sigma rule). *)
Class Unicode := {
  is_space : char -> bool;
  is_decimal : char -> bool;
  lower_full : str -> char -> str -> str
}.

(** What the proofs use of the tables: on ASCII they are the ASCII ones, a code
    point outside ASCII lowers to a non-empty sequence whose ASCII members are
    lowercase letters (KELVIN SIGN gives k, I WITH DOT ABOVE gives i followed by
    a combining dot). *)
Class UnicodeSpec (U : Unicode) : Prop := {
  space_ascii : forall c, c < 128 -> is_space c = ascii_space c;
  lower_ascii : forall pre c post, c < 128 -> lower_full pre c post = [ascii_lower c];
  lower_other : forall pre c post d,
    128 <= c -> In d (lower_full pre c post) -> d < 128 -> is_lower_az d = true;
  lower_nonempty : forall pre c post, lower_full pre c post <> []
}.

Section Methods.
Context {U : Unicode}.

(** [s.lower()] *)
Fixpoint lower_from (pre s : str) : str :=
  match s with
  | [] => []
  | c :: post => lower_full pre c post ++ lower_from (pre ++ [c]) post
  end.

Definition lower (s : str) : str := lower_from [] s.

(** [s.lstrip()], [s.rstrip()], [s.strip()] *)
Fixpoint lstrip (s : str) : str :=
  match s with
  | [] => []
  | c :: t => if is_space c then lstrip t else s
  end.

Definition rstrip (s : str) : str := rev (lstrip (rev s)).

Definition strip (s : str) : str := rstrip (lstrip s).

(** [s.lstrip("0")] *)
Fixpoint lstrip_zero (s : str) : str :=
  match s with
  | [] => []
  | c :: t => if c =? 48 then lstrip_zero t else s
  end.

(** [s.startswith("1")] *)
Definition startswith_one (s : str) : bool :=
  match s with
  | c :: _ => c =? 49
  | [] => false
  end.

(** [s == t] *)
Fixpoint str_eqb (s t : str) : bool :=
  match s, t with
  | [], [] => true
  | a :: s', b :: t' => (a =? b) && str_eqb s' t'
  | _, _ => false
  end.

(** [not s] *)
Definition is_empty (s : str) : bool :=
  match s with [] => true | _ => false end.

End Methods.

(** The tables restricted to ASCII, every other code point left alone: the
    interpreter's tables agree with them on ASCII text, which is all the
    concrete inputs below contain. *)
Definition ascii_tables : Unicode := {|
  is_space := ascii_space;
  is_decimal := is_digit_09;
  lower_full := fun _ c _ => [ascii_lower c]
|}.

End PyStr.

(** ** Regular expressions of the [re] module

    Only what [EMAIL_PATTERN] is built from: character classes, sequencing
    and the postfix operators.  The matcher works by derivatives; [lang] is the set
    of strings an expression denotes. *)
Module Regex.
Import PyStr.

Inductive regex : Type :=
| Empty
| Eps
| Cls (p : char -> bool)
| Cat (r1 r2 : regex)
| Alt (r1 r2 : regex)
| Star (r : regex).

(** [r+] and [r{2,}] *)
Definition Plus (r : regex) : regex := Cat r (Star r).
Definition AtLeast2 (r : regex) : regex := Cat r (Cat r (Star r)).

Fixpoint nullable (r : regex) : bool :=
  match r with
  | Empty => false
  | Eps => true
  | Cls _ => false
  | Cat r1 r2 => nullable r1 && nullable r2
  | Alt r1 r2 => nullable r1 || nullable r2
  | Star _ => true
  end.

Fixpoint deriv (c : char) (r : regex) : regex :=
  match r with
  | Empty => Empty
  | Eps => Empty
  | Cls p => if p c then Eps else Empty
  | Cat r1 r2 =>
      if nullable r1 then Alt (Cat (deriv c r1) r2) (deriv c r2)
      else Cat (deriv c r1) r2
  | Alt r1 r2 => Alt (deriv c r1) (deriv c r2)
  | Star r1 => Cat (deriv c r1) (Star r1)
  end.

(** The whole of [s] is matched by [r]. *)
Fixpoint matches (r : regex) (s : str) : bool :=
  match s with
  | [] => nullable r
  | c :: t => matches (deriv c r) t
  end.

(** [re.match("^" + r + "$", s)] is not [None]: [^] anchors at the start, and
    [$] holds at the end of the string and also just before a line feed that
    ends the string. *)
Definition re_match_anchored (r : regex) (s : str) : bool :=
  matches r s ||
  match rev s with
  | c :: t => (c =? 10) && matches r (rev t)
  | [] => false
  end.

Inductive lang : regex -> str -> Prop :=
| lang_eps : lang Eps []
| lang_cls p c : p c = true -> lang (Cls p) [c]
| lang_cat r1 r2 s1 s2 : lang r1 s1 -> lang r2 s2 -> lang (Cat r1 r2) (s1 ++ s2)
| lang_alt_l r1 r2 s : lang r1 s -> lang (Alt r1 r2) s
| lang_alt_r r1 r2 s : lang r2 s -> lang (Alt r1 r2) s
| lang_star_nil r : lang (Star r) []
| lang_star_app r s1 s2 : lang r s1 -> lang (Star r) s2 -> lang (Star r) (s1 ++ s2).

(** Some class of [r] accepts [c]. *)
Fixpoint alphabet (r : regex) (c : char) : bool :=
  match r with
  | Empty | Eps => false
  | Cls p => p c
  | Cat r1 r2 | Alt r1 r2 => alphabet r1 c || alphabet r2 c
  | Star r1 => alphabet r1 c
  end.

End Regex.

(** ** [email_cleaner.py] *)
Module EmailCleaner.
Import PyStr Regex.

(** [[a-zA-Z0-9._%+-]] *)
Definition local_class (c : char) : bool :=
  is_lower_az c || is_upper_az c || is_digit_09 c ||
  (c =? 46) || (c =? 95) || (c =? 37) || (c =? 43) || (c =? 45).

(** [[a-zA-Z0-9.-]] *)
Definition domain_class (c : char) : bool :=
  is_lower_az c || is_upper_az c || is_digit_09 c || (c =? 46) || (c =? 45).

(** [[a-zA-Z]] *)
Definition letter_class (c : char) : bool := is_lower_az c || is_upper_az c.

Definition at_sign (c : char) : bool := c =? 64.
Definition dot (c : char) : bool := c =? 46.

(** [EMAIL_PATTERN = r"^[a-zA-Z0-9._%+-]+@[a-zA-Z0-9.-]+\.[a-zA-Z]{2,}$"],
    without its two anchors, which [re_match_anchored] stands for. *)
Definition EMAIL_PATTERN : regex :=
  Cat (Plus (Cls local_class))
   (Cat (Cls at_sign)
    (Cat (Plus (Cls domain_class))
     (Cat (Cls dot) (AtLeast2 (Cls letter_class))))).

Definition nan : str := Eval cbv in str_of "nan".

Section WithTables.
Context {U : Unicode}.

(** [clean(_email)].  The [except] branch is out of reach for a [str]. *)
Definition clean (_email : str) : str :=
  if is_empty _email then nan
  else
    let cleaned := lower (strip _email) in
    if negb (re_match_anchored EMAIL_PATTERN cleaned) then nan
    else cleaned.

(** [email_is_valid(_email)] *)
Definition email_is_valid (_email : str) : bool :=
  if is_empty _email then false
  else re_match_anchored EMAIL_PATTERN (lower (strip _email)).

End WithTables.

(** The shape the pattern asks for, in words: a non-empty local part over
    [local_class], an at sign, a non-empty domain over [domain_class], a dot and
    at least two letters. *)
Definition email_shape (s : str) : Prop :=
  exists loc dom tld,
    s = loc ++ [64] ++ dom ++ [46] ++ tld /\
    loc <> [] /\ forallb local_class loc = true /\
    dom <> [] /\ forallb domain_class dom = true /\
    (2 <= length tld)%nat /\ forallb letter_class tld = true.

End EmailCleaner.

(** ** [phone_cleaner.py]

    The functions take a [str]; on one none of their [except] branches is
    reached. *)
Module PhoneCleaner.
Import PyStr.

Definition nan : str := Eval cbv in str_of "nan".
Definition sentinel : str := Eval cbv in str_of "0000000000".

Section WithTables.
Context {U : Unicode}.

(** [extract_digits(phone)]: [re.sub(r"\D", "", phone_str)] keeps the code
    points [\d] matches.  [None] is read as the empty string by the source, and
    [str] of a string is the string. *)
Definition extract_digits (phone : str) : str :=
  let phone_str := phone in
  if is_empty phone_str || str_eqb (lower phone_str) nan then []
  else List.filter is_decimal phone_str.

(** [phone_is_valid(phone)] *)
Definition phone_is_valid (phone : str) : bool :=
  let digits := extract_digits phone in
  if (length digits =? 10)%nat then true
  else if (length digits =? 11)%nat && startswith_one digits then true
  else false.

(** [clean_zeroes(phone)] *)
Definition clean_zeroes (phone : str) : str :=
  let digits := extract_digits phone in
  let cleaned := lstrip_zero digits in
  cleaned.

(** [is_negative(phone)]: [phone_str.strip().startswith("-")] *)
Definition is_negative (phone : str) : bool :=
  match strip phone with
  | c :: _ => c =? 45
  | [] => false
  end.

(** [phone_clean_and_validate(phone)] *)
Definition phone_clean_and_validate (phone : str) : str :=
  let phone_str := phone in
  let digits := extract_digits phone_str in
  let cleaned := clean_zeroes digits in
  if is_empty phone_str || str_eqb (lower phone_str) nan
     || negb (phone_is_valid cleaned)
  then sentinel
  else if negb (is_empty cleaned) then cleaned
  else sentinel.

End WithTables.

End PhoneCleaner.

(** ** Python values of a sale record

    [validate_sales] receives [DataFrame.to_dict(orient="records")]: each sale
    is a [dict] from column names to scalars.  Floats are IEEE binary64, as in
    the interpreter; a [datetime] is its number of microseconds since the
    epoch. *)
Module PyVal.
Import PyStr.

Inductive pyval : Type :=
| PNone
| PBool (b : bool)
| PInt (z : Z)
| PFloat (f : float)
| PStr (s : str)
| PDatetime (us : Z).

(** [bool(v)] *)
Definition truthy (v : pyval) : bool :=
  match v with
  | PNone => false
  | PBool b => b
  | PInt z => negb (z =? 0)%Z
  | PFloat f => negb (f =? 0)%float
  | PStr s => negb (is_empty s)
  | PDatetime _ => true
  end.

(** [a or b] *)
Definition py_or (a b : pyval) : pyval := if truthy a then a else b.

(** [v is None] *)
Definition is_none (v : pyval) : bool :=
  match v with PNone => true | _ => false end.

(** Numbers: [bool] is a subclass of [int]. *)
Inductive num : Type :=
| NInt (z : Z)
| NFloat (f : float).

Definition as_num (v : pyval) : option num :=
  match v with
  | PBool b => Some (NInt (Z.b2z b))
  | PInt z => Some (NInt z)
  | PFloat f => Some (NFloat f)
  | _ => None
  end.

(** An [int] as a [float] in mixed arithmetic: the nearest double, or
    [OverflowError] ([None]) when there is none. *)
Definition to_float (z : Z) : option float :=
  let f := SF2Prim (binary_normalize prec emax z 0 false) in
  if PrimFloat.is_infinity f then None else Some f.

(** [a * b], [a - b], [abs(a)] on numbers; [None] is an exception. *)
Definition num_mul (a b : num) : option num :=
  match a, b with
  | NInt x, NInt y => Some (NInt (x * y))
  | NInt x, NFloat g => f ← to_float x; Some (NFloat (f * g))
  | NFloat f, NInt y => g ← to_float y; Some (NFloat (f * g))
  | NFloat f, NFloat g => Some (NFloat (f * g))
  end.

Definition num_sub (a b : num) : option num :=
  match a, b with
  | NInt x, NInt y => Some (NInt (x - y))
  | NInt x, NFloat g => f ← to_float x; Some (NFloat (f - g))
  | NFloat f, NInt y => g ← to_float y; Some (NFloat (f - g))
  | NFloat f, NFloat g => Some (NFloat (f - g))
  end.

Definition num_abs (a : num) : num :=
  match a with
  | NInt x => NInt (Z.abs x)
  | NFloat f => NFloat (PrimFloat.abs f)
  end.

(** [a >= 0] *)
Definition num_ge_zero (a : num) : bool :=
  match a with
  | NInt x => (0 <=? x)%Z
  | NFloat f => (0 <=? f)%float
  end.

(** The literal [0.01]: the double nearest to one hundredth. *)
Definition tolerance : float := 0x1.47ae147ae147bp-7%float.

(** [a < 0.01].  An [int] is compared with a [float] by value: it is below
    [0.01] exactly when it is at most zero. *)
Definition num_lt_tolerance (a : num) : bool :=
  match a with
  | NInt x => (x <=? 0)%Z
  | NFloat f => (f <? tolerance)%float
  end.

End PyVal.

(** ** [sales_validator.py] *)
Module SalesValidator.
Import PyStr PyVal.

Abbreviation sale := (gmap string pyval).

(** [sale.get(k)] *)
Definition get (s : sale) (k : string) : pyval := default PNone (s !! k).

(** [sale.get(name) or sale.get("_" + name)]: how every predicate below reads
    a field. *)
Definition field (s : sale) (name : string) : pyval :=
  py_or (get s name) (get s (String "_" name)).

Definition days_of_us (us : Z) : Z := (us / 86400000000)%Z.

Section WithTables.
Context {U : Unicode}.

(** [is_pending(sale)] *)
Definition is_pending (s : sale) : bool :=
  let status := field s "sale_status" in
  match status with
  | PStr t => str_eqb (lower (strip t)) (str_of "pending")
  | _ => false
  end.

(** [is_completed(sale)] *)
Definition is_completed (s : sale) : bool :=
  let status := field s "sale_status" in
  match status with
  | PStr t => str_eqb (lower (strip t)) (str_of "completed")
  | _ => false
  end.

(** [is_cancelled(sale)]: [status.lower() in valid_statuses if status else
    False]; a truthy status that is no [str] has no [lower], and the [except]
    branch answers [False]. *)
Definition is_cancelled (s : sale) : bool :=
  let status := field s "sale_status" in
  if truthy status then
    match status with
    | PStr t =>
        str_eqb (lower t) (str_of "cancelled") || str_eqb (lower t) (str_of "canceled")
    | _ => false
    end
  else false.

End WithTables.

(** [is_future_date(sale, reference_date)]; [now] is what [datetime.now()]
    returns.  Comparing anything but a [datetime] with one raises, and the
    [except] branch answers [False]. *)
Definition is_future_date (now : Z) (s : sale) (reference_date : option Z) : bool :=
  let _sale_date := field s "sale_date" in
  if negb (truthy _sale_date) then false
  else
    let ref_date := default now reference_date in
    match _sale_date with
    | PDatetime d => (ref_date <? d)%Z
    | _ => false
    end.

(** [is_older_than_years(sale, years, reference_date)] *)
Definition is_older_than_years (now : Z) (s : sale) (years : Z)
    (reference_date : option Z) : bool :=
  let _sale_date := field s "sale_date" in
  if negb (truthy _sale_date) then false
  else
    let ref_date := default now reference_date in
    match _sale_date with
    | PDatetime d =>
        let years_diff := (days_of_us (ref_date - d) / 365)%Z in
        (years <? years_diff)%Z
    | _ => false
    end.

(** [validate_prices(sale)].  [_unit_price >= 0 and _total_price >= 0] raises
    [TypeError] on a value that is no number, which the [except] branch turns
    into [False]; [and] does not look at its second operand when the first is
    false. *)
Definition validate_prices (s : sale) : bool :=
  let _unit_price := field s "unit_price" in
  let _total_price := field s "total_price" in
  if negb (is_none _unit_price) && negb (is_none _total_price) then
    match as_num _unit_price with
    | None => false
    | Some u =>
        if num_ge_zero u then
          match as_num _total_price with
          | None => false
          | Some t => num_ge_zero t
          end
        else false
    end
  else false.

(** [validate_total_price(sale)].  A [str] operand makes the subtraction (or
    the product before it) raise, an [int] too large for a [float] makes the
    mixed product or difference raise: every exception is answered [False]. *)
Definition validate_total_price (s : sale) : bool :=
  let _quantity := field s "quantity" in
  let _unit_price := field s "unit_price" in
  let _total_price := field s "total_price" in
  if is_none _quantity || is_none _unit_price || is_none _total_price then false
  else
    match as_num _quantity, as_num _unit_price, as_num _total_price with
    | Some q, Some u, Some t =>
        match num_mul q u with
        | None => false
        | Some expected_total =>
            match num_sub t expected_total with
            | None => false
            | Some d => num_lt_tolerance (num_abs d)
            end
        end
    | _, _, _ => false
    end.

(** A name that does not begin with an underscore. *)
Definition public_name (name : string) : Prop :=
  forall rest, name <> String "_" rest.

(** One row of the table [validate_sales] builds. *)
Record validation_row : Type := {
  row_sale_id : pyval;
  row_product_id : pyval;
  row_is_pending : bool;
  row_is_completed : bool;
  row_is_cancelled : bool;
  row_is_future_date : bool;
  row_validate_prices : bool;
  row_validate_total_price : bool
}.

(** [validate_sales(sales)] *)
Definition validate_sales {U : Unicode} (now : Z) (sales : list sale) : list validation_row :=
  map (fun s =>
         {| row_sale_id := field s "sale_id";
            row_product_id := field s "product_id";
            row_is_pending := is_pending s;
            row_is_completed := is_completed s;
            row_is_cancelled := is_cancelled s;
            row_is_future_date := is_future_date now s None;
            row_validate_prices := validate_prices s;
            row_validate_total_price := validate_total_price s |})
      sales.

End SalesValidator.

(** ** Tables

    A [pandas.DataFrame] as [sales_cleaner.py] uses it: an index of row labels
    and named columns of equal length.  A column is either of a datetime dtype
    (each cell a time, or [NaT], here [None]) or holds scalars of any other
    kind.  The scalars are a parameter [cell] with a decidable equality (what a
    join compares keys with) and a missing marker [NA] (what a new row is filled
    with); [parse_datetime column c] is the cell [pd.to_datetime(column,
    errors="coerce")] writes for [c], [None] when [c] cannot be read as a date
    (the format is inferred from the column, hence the first argument).

    Row labels are integers, as in the index [read_csv] builds and in what
    is left of it after rows are dropped or reordered.  Times are integers on
    one clock (no time zones).  A join compares identifiers with the equality
    of [cell], under which a missing identifier equals a missing identifier,
    as in [merge].  [merge] raises [ValueError] on two key columns whose dtypes
    it refuses to compare, a column of integers against a column of strings
    say; which pairs of columns it accepts is the interface [MergeKeys]. *)
Module Frame.

Local Open Scope Z_scope.

(** [merge_accepts left right]: [DataFrame.merge] accepts to join on a key
    column holding [left] and a key column holding [right]; it raises
    [ValueError] otherwise. *)
Class MergeKeys (cell : Type) := {
  merge_accepts : list cell -> list cell -> bool
}.

Section Tables.
Context {cell : Type} `{EqDecision cell} {keys : MergeKeys cell}.
Variable NA : cell.
Variable parse_datetime : list cell -> cell -> option Z.

Inductive column : Type :=
| Datetime (l : list (option Z))
| Object (l : list cell).

Record DataFrame : Type := {
  index : list Z;
  columns : gmap string column
}.

Definition column_length (c : column) : nat :=
  match c with
  | Datetime l => length l
  | Object l => length l
  end.


(** Every column has one cell per row. *)
Definition wf (df : DataFrame) : Prop :=
  forall name c, columns df !! name = Some c -> column_length c = length (index df).

(** The index of a freshly read or freshly joined table: [RangeIndex(n)]. *)
Definition range_index (n : nat) : list Z := map Z.of_nat (seq 0 n).

(** [col in df.columns] *)
Definition has_column (df : DataFrame) (col : string) : bool :=
  bool_decide (is_Some (columns df !! col)).

Definition get_object (df : DataFrame) (col : string) : option (list cell) :=
  match columns df !! col with
  | Some (Object l) => Some l
  | _ => None
  end.

Definition get_datetime (df : DataFrame) (col : string) : option (list (option Z)) :=
  match columns df !! col with
  | Some (Datetime l) => Some l
  | _ => None
  end.

(** [a < b] and [a <= b] on datetime cells: a comparison with [NaT] is false. *)
Definition dt_lt (a b : option Z) : bool :=
  match a, b with
  | Some x, Some y => x <? y
  | _, _ => false
  end.

Definition dt_le (a b : option Z) : bool :=
  match a, b with
  | Some x, Some y => x <=? y
  | _, _ => false
  end.

(** [pd.to_datetime(column, errors="coerce")] *)
Definition to_datetime (l : list cell) : list (option Z) := map (parse_datetime l) l.

(** [ensure_datetime(df, col)]; [None] is the [KeyError] of [df[col]]. *)
Definition ensure_datetime (df : DataFrame) (col : string) : option DataFrame :=
  match columns df !! col with
  | None => None
  | Some (Datetime _) => Some df
  | Some (Object l) =>
      Some {| index := index df;
              columns := <[col := Datetime (to_datetime l)]> (columns df) |}
  end.

(** A row of [merged], with the two columns the code reads.  [m_source] is
    the position of the sale the row was built from: the code never reads it,
    the statements do. *)
Record merged_row : Type := {
  m_source : nat;
  m_sale_date : option Z;
  m_hire_date : option Z
}.

(** The employee rows a seller identifier joins to, in table order. *)
Definition matching (emps : list (cell * option Z)) (seller : cell) : list (cell * option Z) :=
  List.filter (fun e => bool_decide (e.1 = seller)) emps.

(** The rows [merge(..., how="left")] builds for the sale at position [p]: one
    per matching employee row, in the order of the employee table, or a single
    row with no hire date when none matches.  With [suffixes=("", "_emp")] a
    column [hire_date] of the sales table itself keeps its name in the result
    and is the one [merged["hire_date"]] reads ([own_hire]). *)
Definition merge_sale (emps : list (cell * option Z)) (own_hire : option (option Z))
    (p : nat) (seller : cell) (sale_date : option Z) : list merged_row :=
  let hire h := match own_hire with Some o => o | None => h end in
  match matching emps seller with
  | [] => [ {| m_source := p; m_sale_date := sale_date; m_hire_date := hire None |} ]
  | ms => map (fun e => {| m_source := p; m_sale_date := sale_date;
                           m_hire_date := hire e.2 |}) ms
  end.

Fixpoint merge_from (emps : list (cell * option Z)) (own : option (list (option Z)))
    (p : nat) (sellers : list cell) (dates : list (option Z)) : list merged_row :=
  match sellers, dates with
  | s :: sellers', d :: dates' =>
      merge_sale emps ((fun l => default None (l !! p)) <$> own) p s d
      ++ merge_from emps own (S p) sellers' dates'
  | _, _ => []
  end.

(** [sales_df.merge(employees_df[["employee_id", "hire_date"]],
    left_on="seller_employee_id", right_on="employee_id", how="left",
    suffixes=("", "_emp"))], after both date columns were coerced.  The result
    carries a new [RangeIndex]: row [i] of the list has label [i].  [None]:
    [merge] raises [ValueError] because it refuses to compare the two
    identifier columns; or an identifier column is of a datetime dtype, or the
    sales table has a [hire_date] column that is not of a datetime dtype, which
    the model does not describe. *)
Definition merge (sales_df employees_df : DataFrame) : option (list merged_row) :=
  sellers ← get_object sales_df "seller_employee_id";
  dates ← get_datetime sales_df "sale_date";
  ids ← get_object employees_df "employee_id";
  hires ← get_datetime employees_df "hire_date";
  if merge_accepts sellers ids then
    match columns sales_df !! "hire_date" with
    | None => Some (merge_from (zip ids hires) None 0 sellers dates)
    | Some (Datetime own) => Some (merge_from (zip ids hires) (Some own) 0 sellers dates)
    | Some (Object _) => None
    end
  else None.

(** [merged["sale_date"] < merged["hire_date"]] *)
Definition invalid_mask (r : merged_row) : bool := dt_lt (m_sale_date r) (m_hire_date r).

(** [merged[invalid_mask].index] *)
Fixpoint invalid_from (i : nat) (merged : list merged_row) : list Z :=
  match merged with
  | [] => []
  | r :: rest =>
      if invalid_mask r then Z.of_nat i :: invalid_from (S i) rest
      else invalid_from (S i) rest
  end.

Definition invalid_sales_idx (merged : list merged_row) : list Z := invalid_from 0 merged.

(** [employees_df[employees_df["hire_date"] <= sale_date]], as the list of its
    identifiers in table order. *)
Definition valid_emps (emps : list (cell * option Z)) (sale_date : option Z) : list cell :=
  map fst (List.filter (fun e => dt_le e.2 sale_date) emps).

(** The cells of a column after [df.at[label, col] = v] when [label] is in the
    index: every row carrying the label is written. *)
Fixpoint set_where (idx : list Z) (label : Z) (v : cell) (l : list cell) : list cell :=
  match idx, l with
  | i :: idx', c :: l' => (if bool_decide (i = label) then v else c) :: set_where idx' label v l'
  | _, _ => l
  end.

(** A column after a row of missing values was appended. *)
Definition enlarge (c : column) : column :=
  match c with
  | Datetime l => Datetime (l ++ [None])
  | Object l => Object (l ++ [NA])
  end.

(** [df.at[label, col] = v].  A label the index does not hold enlarges the
    table: a row with that label is appended, missing everywhere but in [col].
    [None]: [col] is absent or of a datetime dtype (not covered). *)
Definition at_set (df : DataFrame) (label : Z) (col : string) (v : cell) : option DataFrame :=
  match columns df !! col with
  | Some (Object l) =>
      if bool_decide (label ∈ index df) then
        Some {| index := index df;
                columns := <[col := Object (set_where (index df) label v l)]> (columns df) |}
      else
        Some {| index := index df ++ [label];
                columns := <[col := Object (l ++ [v])]> (enlarge <$> columns df) |}
  | _ => None
  end.

(** One turn of the loop [for idx in invalid_sales_idx]. *)
Definition reassign (merged : list merged_row) (emps : list (cell * option Z))
    (sales_df : DataFrame) (idx : Z) : option DataFrame :=
  sale_row ← merged !! Z.to_nat idx;
  match valid_emps emps (m_sale_date sale_row) with
  | new_emp_id :: _ => at_set sales_df idx "seller_employee_id" new_emp_id
  | [] => Some sales_df
  end.

Fixpoint reassign_all (merged : list merged_row) (emps : list (cell * option Z))
    (sales_df : DataFrame) (idxs : list Z) : option DataFrame :=
  match idxs with
  | [] => Some sales_df
  | idx :: rest =>
      sales_df' ← reassign merged emps sales_df idx;
      reassign_all merged emps sales_df' rest
  end.

Inductive log_record : Type :=
| Warning (message : string) (missing : list string).

Definition required_sales_cols : list string := ["sale_date"; "seller_employee_id"].
Definition required_employee_cols : list string := ["employee_id"; "hire_date"].

Definition missing_columns (df : DataFrame) (required : list string) : list string :=
  List.filter (fun col => negb (has_column df col)) required.

(** [clean_data(sales_df, employees_df)]: the table returned and what was
    logged.  [None]: the call does not return a table, [merge] raising
    [ValueError], or the tables are of a kind the model does not describe (see
    [merge]). *)
Definition clean_data (sales_df employees_df : DataFrame)
    : option (DataFrame * list log_record) :=
  let missing_sales := missing_columns sales_df required_sales_cols in
  let missing_emps := missing_columns employees_df required_employee_cols in
  match missing_sales, missing_emps with
  | _ :: _, _ =>
      Some (sales_df, [Warning "Missing columns in sales DataFrame" missing_sales])
  | [], _ :: _ =>
      Some (sales_df, [Warning "Missing columns in employees DataFrame" missing_emps])
  | [], [] =>
      sales_df ← ensure_datetime sales_df "sale_date";
      employees_df ← ensure_datetime employees_df "hire_date";
      merged ← merge sales_df employees_df;
      ids ← get_object employees_df "employee_id";
      hires ← get_datetime employees_df "hire_date";
      sales_df ← reassign_all merged (zip ids hires) sales_df (invalid_sales_idx merged);
      Some (sales_df, [])
  end.

(** *** Notions the statements use *)

(** The cells of a date column once [ensure_datetime] has run. *)
Definition coerce_column (c : column) : list (option Z) :=
  match c with
  | Datetime l => l
  | Object l => to_datetime l
  end.

(** The sale of [seller] made on [sale_date] joins an employee row whose hire
    date is later: some row of the join built from it is flagged invalid. *)
Definition flagged (emps : list (cell * option Z)) (seller : cell) (sale_date : option Z)
    : bool :=
  existsb (fun e => dt_lt sale_date e.2) (matching emps seller).

(** The seller the reconciliation is meant to leave on a sale: the first
    employee of the table hired on or before the sale date when the sale is
    flagged and there is one, the seller it had otherwise. *)
Definition reassigned (emps : list (cell * option Z)) (seller : cell)
    (sale_date : option Z) : cell :=
  if flagged emps seller sale_date then
    match valid_emps emps sale_date with
    | new_emp_id :: _ => new_emp_id
    | [] => seller
    end
  else seller.

(** The [hire_date] column of the sales table itself, when it has one. *)
Definition own_hire (sales_df : DataFrame) : option (list (option Z)) :=
  match columns sales_df !! "hire_date" with
  | Some (Datetime own) => Some own
  | _ => None
  end.

(** The seller one turn of the loop leaves on the sale it examines, [r] being
    the row of the join and [seller] the seller the sale had: the first
    employee hired on or before the date of the row when the row is flagged and
    there is one, [seller] otherwise. *)
Definition written (emps : list (cell * option Z)) (r : merged_row) (seller : cell) : cell :=
  if invalid_mask r then
    match valid_emps emps (m_sale_date r) with
    | new_emp_id :: _ => new_emp_id
    | [] => seller
    end
  else seller.

(** The row of the join built from the sale at position [p] when its seller
    joins at most one employee row, and the join of a whole table of such
    sales: one row per sale, in the order of the sales. *)
Definition joined_row (emps : list (cell * option Z)) (p : nat) (seller : cell)
    (sale_date : option Z) : merged_row :=
  {| m_source := p;
     m_sale_date := sale_date;
     m_hire_date := match matching emps seller with e :: _ => e.2 | [] => None end |}.

Fixpoint joined_rows (emps : list (cell * option Z)) (p : nat) (sellers : list cell)
    (dates : list (option Z)) : list merged_row :=
  match sellers, dates with
  | s :: sellers', d :: dates' => joined_row emps p s d :: joined_rows emps (S p) sellers' dates'
  | _, _ => []
  end.



End Tables.

End Frame.

(** * More of the code *)

(** ** [email_cleaner.py]: [get_domain] *)
Module EmailDomain.
Import PyStr EmailCleaner.

(** [s.split(sep)] for a separator of one code point. *)
Fixpoint split_on (sep : char) (s : str) : list str :=
  match s with
  | [] => [[]]
  | c :: t =>
      if c =? sep then [] :: split_on sep t
      else
        match split_on sep t with
        | piece :: rest => (c :: piece) :: rest
        | [] => [[c]]
        end
  end.

(** [get_domain(_email)]: [_email.split("@")[1].lower()] for a valid email.
    The pieces are cut from the argument as given, not from its trimmed form.
    An [IndexError] would be caught and answered [None]. *)
Definition get_domain {U : Unicode} (_email : str) : option str :=
  if negb (email_is_valid _email) then None
  else
    match split_on 64 _email !! 1%nat with
    | Some domain => Some (lower domain)
    | None => None
    end.

End EmailDomain.

(** ** [sales_validator.py]: [compute_years_to_sale]; [__main__.py]:
    [create_sale_instances] *)
Module SalesInstances.
Import PyStr PyVal SalesValidator.

Local Open Scope Z_scope.

(** [compute_years_to_sale(_hire_date, _sale_date)] on two [datetime]s, each
    possibly [None]. *)
Definition compute_years_to_sale (_hire_date _sale_date : option Z) : option bool :=
  match _hire_date, _sale_date with
  | Some h, Some s =>
      let days_between := days_of_us (s - h) in
      let years_between := days_between / 365 in
      Some (1 <=? years_between)
  | _, _ => None
  end.

(** [v == False], as [DataFrame.eq(False)] tests each cell: [False], and the
    numbers equal to it. *)
Definition eq_false (v : pyval) : bool :=
  match v with
  | PBool b => negb b
  | PInt z => z =? 0
  | PFloat f => (f =? 0)%float
  | _ => false
  end.

(** One entry of [~validations.eq(False).any(axis=1)]: no cell of the row
    equals [False]. *)
Definition valid_mask (r : validation_row) : bool :=
  negb (eq_false (row_sale_id r) || eq_false (row_product_id r)
        || negb (row_is_pending r) || negb (row_is_completed r)
        || negb (row_is_cancelled r) || negb (row_is_future_date r)
        || negb (row_validate_prices r) || negb (row_validate_total_price r)).

(** The dataclass [Sale] of [objects/sale.py]. *)
Record Sale : Type := {
  _sale_id : pyval;
  _product_id : pyval;
  _seller_first_name : pyval;
  _seller_last_name : pyval;
  _seller_employee_id : pyval;
  _buyer_name : pyval;
  _sale_date : pyval;
  _quantity : pyval;
  _unit_price : pyval;
  _total_price : pyval;
  _sale_status : pyval
}.

Definition sale_fields : list string :=
  ["_sale_id"; "_product_id"; "_seller_first_name"; "_seller_last_name";
   "_seller_employee_id"; "_buyer_name"; "_sale_date"; "_quantity"; "_unit_price";
   "_total_price"; "_sale_status"].

(** [Sale] called with the entries of [row] as keyword arguments: the keys of
    [row] must be the fields of the dataclass, no more and no fewer; otherwise
    [TypeError] ([None]). *)
Definition Sale_of_row (row : sale) : option Sale :=
  if decide (dom row = list_to_set (C := gset string) sale_fields) then
    Some {| _sale_id := get row "_sale_id";
            _product_id := get row "_product_id";
            _seller_first_name := get row "_seller_first_name";
            _seller_last_name := get row "_seller_last_name";
            _seller_employee_id := get row "_seller_employee_id";
            _buyer_name := get row "_buyer_name";
            _sale_date := get row "_sale_date";
            _quantity := get row "_quantity";
            _unit_price := get row "_unit_price";
            _total_price := get row "_total_price";
            _sale_status := get row "_sale_status" |}
  else None.

Fixpoint build_sales (rows : list sale) : option (list Sale) :=
  match rows with
  | [] => Some []
  | row :: rest =>
      s ← Sale_of_row row;
      l ← build_sales rest;
      Some (s :: l)
  end.

(** [create_sale_instances(df_sales, validations)]: the records of the rows
    the mask keeps, each turned into a [Sale].  The two tables have one row per
    sale, in the same order and under the same index (the mask is aligned on
    it), as when [validations] is [validate_sales] of the records of a table
    that carries the default index. *)
Definition create_sale_instances (df_sales : list sale)
    (validations : list validation_row) : option (list Sale) :=
  let valid_rows :=
    map fst (List.filter (fun p => valid_mask p.2) (zip df_sales validations)) in
  build_sales valid_rows.

End SalesInstances.

(** ** [str.split] and [str.join] *)
Module PySplit.
Import PyStr.

Section Methods.
Context {U : Unicode}.

(** [s.split()]: the maximal runs of code points that are not whitespace, in
    order.  [word] holds the run being read, last code point first. *)
Fixpoint split_from (word s : str) : list str :=
  match s with
  | [] => match word with [] => [] | _ => [rev word] end
  | c :: t =>
      if is_space c then
        match word with
        | [] => split_from [] t
        | _ => rev word :: split_from [] t
        end
      else split_from (c :: word) t
  end.

Definition split (s : str) : list str := split_from [] s.

End Methods.

(** [sep.join(words)] *)
Fixpoint join (sep : str) (words : list str) : str :=
  match words with
  | [] => []
  | [w] => w
  | w :: rest => w ++ sep ++ join sep rest
  end.

End PySplit.

(** ** [employees_cleaner.py]: the gender of a name

    [gender_guesser]'s detector is a table of first names that the model takes
    as a function [get_gender] from a name to the detector's answer; [None] is
    an exception, which [infer_gender_from_name] catches like any other.  What
    the [except] branch prints is left out. *)
Module EmployeesCleaner.
Import PyStr PyVal PySplit.

Definition Male : str := Eval cbv in str_of "Male".
Definition Female : str := Eval cbv in str_of "Female".
Definition Other : str := Eval cbv in str_of "Other".
Definition Unknown : str := Eval cbv in str_of "Unknown".

Section WithTables.
Context {U : Unicode}.
Variable get_gender : str -> option str.

(** [name.split()[0] if name else ""]; [None]: [IndexError] when the name has
    no word, [AttributeError] when it is not a string. *)
Definition first_word (name : pyval) : option str :=
  if truthy name then
    match name with
    | PStr s => head (split s)
    | _ => None
    end
  else Some [].

(** [infer_gender_from_name(name)] *)
Definition infer_gender_from_name (name : pyval) : str :=
  match first_word name with
  | Some first_name =>
      match get_gender first_name with
      | Some result =>
          if str_eqb result (str_of "male") || str_eqb result (str_of "mostly_male")
          then Male
          else if str_eqb result (str_of "female") || str_eqb result (str_of "mostly_female")
          then Female
          else if str_eqb result (str_of "andy") then Other
          else Unknown
      | None => Unknown
      end
  | None => Unknown
  end.

(** [current_gender != inferred], [inferred] a string. *)
Definition ne_str (current_gender : pyval) (inferred : str) : bool :=
  match current_gender with
  | PStr s => negb (str_eqb s inferred)
  | _ => true
  end.

(** [clean_gender_from_name(name, current_gender)] *)
Definition clean_gender_from_name (name current_gender : pyval) : pyval :=
  let inferred := infer_gender_from_name name in
  if ne_str current_gender inferred then PStr inferred
  else current_gender.

End WithTables.

End EmployeesCleaner.

(** ** [employees_validator.py]

    An employee is a [dict] like a sale.  A date that is neither missing nor a
    [datetime] (or [Timestamp]) is handed to [pd.to_datetime], whose reading of
    strings and numbers the model does not describe: the functions answer
    [None] at the outer level there.  Inside, [None] is Python's [None]. *)
Module EmployeesValidator.
Import PyVal SalesValidator.

Local Open Scope Z_scope.

Definition employee := gmap string pyval.

(** [isinstance(v, float) and pd.isna(v)] *)
Definition is_nan_float (v : pyval) : bool :=
  match v with
  | PFloat f => PrimFloat.is_nan f
  | _ => false
  end.

(** [termination_is_after_hire(employee)] *)
Definition termination_is_after_hire (employee : employee) : option (option bool) :=
  let _hire_date := field employee "hire_date" in
  let _termination_date := field employee "termination_date" in
  if negb (truthy _hire_date) || negb (truthy _termination_date) then Some None
  else if is_nan_float _hire_date || is_nan_float _termination_date then Some None
  else
    match _hire_date, _termination_date with
    | PDatetime h, PDatetime t =>
        let days_between := days_of_us (t - h) in
        Some (Some (1 <=? days_between))
    | _, _ => None
    end.

(** [termination_is_after_birthdate(employee)] *)
Definition termination_is_after_birthdate (employee : employee) : option (option bool) :=
  let _birthdate := field employee "birthdate" in
  let _termination_date := field employee "termination_date" in
  if negb (truthy _birthdate) || negb (truthy _termination_date) then Some None
  else if is_nan_float _birthdate || is_nan_float _termination_date then Some None
  else
    match _birthdate, _termination_date with
    | PDatetime b, PDatetime t =>
        let days_between := days_of_us (t - b) in
        let years_between := days_between / 365 in
        Some (Some (18 <=? years_between))
    | _, _ => None
    end.

End EmployeesValidator.

(** ** [__main__.py]: the names [calculate_relations] derives

    The two [lambda]s that fill the columns [First Name] and [Last Name] from
    an employee's [name], on a name that is a string. *)
Module RelationNames.
Import PyStr PySplit.

Section WithTables.
Context {U : Unicode}.

(** [str(x).split()[0] if x else ""]; [None]: [IndexError]. *)
Definition first_name (x : str) : option str :=
  if negb (is_empty x) then head (split x) else Some [].

(** [" ".join(str(x).split()[1:]) if x and len(str(x).split()) > 1 else ""] *)
Definition last_name (x : str) : str :=
  if negb (is_empty x) && (1 <? length (split x))%nat
  then join (str_of " ") (tail (split x))
  else [].

End WithTables.

End RelationNames.

(** * Concrete inputs *)

(** The records of the repository's tests and of the specification's
    examples, and the records on which the predicates go wrong. *)
Module SaleFixtures.
Import PyVal SalesValidator.

Definition sale_2_10_20 : sale :=
  {[ "quantity" := PInt 2; "unit_price" := PFloat 10; "total_price" := PFloat 20 ]}.

Definition sale_2_10_15 : sale :=
  {[ "quantity" := PInt 2; "unit_price" := PFloat 10; "total_price" := PFloat 15 ]}.

(** [total_price = 20.02], the double nearest to it. *)
Definition sale_2_10_2002 : sale :=
  {[ "quantity" := PInt 2; "unit_price" := PFloat 10;
     "total_price" := PFloat 0x1.4051eb851eb85p+4 ]}.

(** No item sold, nothing charged: [quantity = 0], [unit_price = 10.0],
    [total_price = 0.0]. *)
Definition sale_nothing_sold : sale :=
  {[ "quantity" := PInt 0; "unit_price" := PFloat 10; "total_price" := PFloat 0 ]}.

(** An item given away on a sale that totals 20: [unit_price = 0.0],
    [total_price = 20.0]. *)
Definition sale_free_item : sale :=
  {[ "unit_price" := PFloat 0; "total_price" := PFloat 20 ]}.

Definition prices_10_20 : sale :=
  {[ "unit_price" := PFloat 10; "total_price" := PFloat 20 ]}.

Definition prices_minus1_20 : sale :=
  {[ "unit_price" := PFloat (-1); "total_price" := PFloat 20 ]}.

End SaleFixtures.

(** ** Concrete tables

    Scalars for the examples: a missing value, an integer or a string.  The
    dates of the examples are days since the epoch. *)
Module TableFixtures.
Import Frame.

Local Open Scope Z_scope.

Inductive scalar : Type :=
| SNaN
| SInt (z : Z)
| SStr (s : string).

#[global] Instance scalar_eq_dec : EqDecision scalar.
Proof. solve_decision. Defined.

(** A coercion that reads an integer as a time since the epoch and nothing
    else.  It is what [pd.to_datetime(..., errors="coerce")] does on the
    columns below, whose strings are not dates. *)
Definition parse_epoch (_ : list scalar) (c : scalar) : option Z :=
  match c with
  | SInt z => Some z
  | _ => None
  end.

(** [merge] on key columns of these scalars: it refuses a column of numbers
    (integers, missing values) against a column that holds strings and no
    integer, and accepts every other pair of columns. *)
Definition numbers (l : list scalar) : bool :=
  match l with
  | [] => false
  | _ => forallb (fun c => match c with SStr _ => false | _ => true end) l
  end.

Definition strings (l : list scalar) : bool :=
  existsb (fun c => match c with SStr _ => true | _ => false end) l
  && forallb (fun c => match c with SInt _ => false | _ => true end) l.

#[global] Instance scalar_keys : MergeKeys scalar := {|
  merge_accepts left right :=
    negb ((numbers left && strings right) || (strings left && numbers right))
|}.

Abbreviation table := (DataFrame (cell := scalar)).
Abbreviation clean := (clean_data SNaN parse_epoch).

Definition d_2021_01_01 : Z := 18628.
Definition d_2022_01_01 : Z := 18993.
Definition d_2022_01_02 : Z := 18994.
Definition d_2022_06_01 : Z := 19144.
Definition d_2023_01_01 : Z := 19358.

(** [tests/cleaners/test_sales_cleaner.py], [test_clean_data_reassign]. *)
Definition test_sales : table := {|
  index := [0; 1];
  columns := {[ "sale_id" := Object [SInt 1; SInt 2];
                "seller_employee_id" := Object [SInt 1; SInt 2];
                "sale_date" := Datetime [Some d_2022_01_01; Some d_2022_01_02] ]}
|}.

Definition test_employees : table := {|
  index := [0; 1];
  columns := {[ "employee_id" := Object [SInt 1; SInt 2];
                "hire_date" := Datetime [Some d_2021_01_01; Some d_2022_01_02] ]}
|}.

(** Employees E1 (hired 2021-01-01) and E2 (hired 2023-01-01). *)
Definition two_employees : table := {|
  index := [0; 1];
  columns := {[ "employee_id" := Object [SStr "E1"; SStr "E2"];
                "hire_date" := Datetime [Some d_2021_01_01; Some d_2023_01_01] ]}
|}.

(** The same two employees, the row of E1 entered twice. *)
Definition employees_e1_twice : table := {|
  index := [0; 1; 2];
  columns := {[ "employee_id" := Object [SStr "E1"; SStr "E1"; SStr "E2"];
                "hire_date" :=
                  Datetime [Some d_2021_01_01; Some d_2021_01_01; Some d_2023_01_01] ]}
|}.

(** The same two employees, the row of E2 entered twice. *)
Definition employees_e2_twice : table := {|
  index := [0; 1; 2];
  columns := {[ "employee_id" := Object [SStr "E1"; SStr "E2"; SStr "E2"];
                "hire_date" :=
                  Datetime [Some d_2021_01_01; Some d_2023_01_01; Some d_2023_01_01] ]}
|}.

(** Three sales of 2022-06-01: S1 and S3 by E1, S2 by E2, who was hired
    later. *)
Definition three_sales : table := {|
  index := [0; 1; 2];
  columns := {[ "sale_id" := Object [SStr "S1"; SStr "S2"; SStr "S3"];
                "seller_employee_id" := Object [SStr "E1"; SStr "E2"; SStr "E1"];
                "sale_date" :=
                  Datetime [Some d_2022_06_01; Some d_2022_06_01; Some d_2022_06_01] ]}
|}.

(** Two sales of 2022-06-01: S1 by E2, hired later, and S2 by E9, who is not
    in the employee table. *)
Definition two_sales : table := {|
  index := [0; 1];
  columns := {[ "sale_id" := Object [SStr "S1"; SStr "S2"];
                "seller_employee_id" := Object [SStr "E2"; SStr "E9"];
                "sale_date" := Datetime [Some d_2022_06_01; Some d_2022_06_01] ]}
|}.

(** The two sales again, in a table whose rows carry the labels 1 and 0 (as
    after [sort_values] or [sort_index(ascending=False)]). *)
Definition two_sales_relabelled : table := {|
  index := [1; 0];
  columns := {[ "sale_id" := Object [SStr "S1"; SStr "S2"];
                "seller_employee_id" := Object [SStr "E2"; SStr "E9"];
                "sale_date" := Datetime [Some d_2022_06_01; Some d_2022_06_01] ]}
|}.


(** A sales table without its date column. *)
Definition sales_without_date : table := {|
  index := [0];
  columns := {[ "sale_id" := Object [SStr "S1"];
                "seller_employee_id" := Object [SStr "E2"] ]}
|}.

End TableFixtures.

(** ** More tables *)
Module MoreTableFixtures.
Import Frame TableFixtures.

Local Open Scope Z_scope.

(** Two sales of 2023-01-01, by E1 and by E2 (hired that very day), in a
    table whose rows carry the labels 1 and 0. *)
Definition late_sales : table := {|
  index := [1; 0];
  columns := {[ "sale_id" := Object [SStr "S1"; SStr "S2"];
                "seller_employee_id" := Object [SStr "E1"; SStr "E2"];
                "sale_date" := Object [SInt d_2023_01_01; SInt d_2023_01_01] ]}
|}.


End MoreTableFixtures.

(** * Properties *)

(** ** The matcher against the language *)
Module RegexFacts.
Import PyStr Regex.

Lemma lang_empty_inv s : lang Empty s -> False.
Proof. inversion 1. Qed.

Lemma lang_eps_inv s : lang Eps s -> s = [].
Proof. inversion 1. reflexivity. Qed.

Lemma lang_cls_inv p s : lang (Cls p) s -> exists c, s = [c] /\ p c = true.
Proof. inversion 1; subst. eauto. Qed.

Lemma lang_cat_inv r1 r2 s :
  lang (Cat r1 r2) s -> exists s1 s2, s = s1 ++ s2 /\ lang r1 s1 /\ lang r2 s2.
Proof. inversion 1; subst. eauto. Qed.

Lemma lang_alt_inv r1 r2 s : lang (Alt r1 r2) s -> lang r1 s \/ lang r2 s.
Proof. inversion 1; subst; eauto. Qed.

Lemma lang_cat_cons r1 r2 c s1 s2 :
  lang r1 (c :: s1) -> lang r2 s2 -> lang (Cat r1 r2) (c :: s1 ++ s2).
Proof. intros L1 L2. apply (lang_cat r1 r2 (c :: s1) s2 L1 L2). Qed.

Lemma nullable_lang r : nullable r = true <-> lang r [].
Proof.
  induction r as [| |p|r1 IH1 r2 IH2|r1 IH1 r2 IH2|r IH]; simpl; split; intros Hn;
    try discriminate; try (by constructor).
  - by apply lang_empty_inv in Hn.
  - apply lang_cls_inv in Hn as (c & E & _). discriminate.
  - apply andb_true_iff in Hn as [H1 H2].
    apply (lang_cat r1 r2 [] []); [by apply IH1 | by apply IH2].
  - apply lang_cat_inv in Hn as (s1 & s2 & E & L1 & L2).
    symmetry in E. apply app_eq_nil in E as [-> ->].
    apply andb_true_iff; split; [by apply IH1 | by apply IH2].
  - apply orb_true_iff in Hn as [H1 | H2];
      [apply lang_alt_l; by apply IH1 | apply lang_alt_r; by apply IH2].
  - apply orb_true_iff.
    apply lang_alt_inv in Hn as [L | L]; [left; by apply IH1 | right; by apply IH2].
Qed.

(** A non-empty word of a star starts with a non-empty word of its body. *)
Lemma lang_star_cons r c s :
  lang (Star r) (c :: s) ->
  exists s1 s2, s = s1 ++ s2 /\ lang r (c :: s1) /\ lang (Star r) s2.
Proof.
  intros L. remember (Star r) as q eqn:Eq. remember (c :: s) as w eqn:Ew.
  revert Eq Ew.
  induction L as [| | | | | |q' s1 s2 L1 _ L2 IH2]; intros Eq Ew; try discriminate.
  injection Eq as ->.
  destruct s1 as [|a s1'].
  - simpl in Ew. by apply IH2.
  - simpl in Ew. injection Ew as -> <-. by exists s1', s2.
Qed.

Lemma deriv_lang c r : forall s, lang (deriv c r) s <-> lang r (c :: s).
Proof.
  induction r as [| |p|r1 IH1 r2 IH2|r1 IH1 r2 IH2|r IH]; intros s; simpl.
  - split; intros L; by apply lang_empty_inv in L.
  - split; intros L; [by apply lang_empty_inv in L | by apply lang_eps_inv in L].
  - destruct (p c) eqn:Hp; split; intros L.
    + apply lang_eps_inv in L as ->. by constructor.
    + apply lang_cls_inv in L as (d & E & _). injection E as _ ->. constructor.
    + by apply lang_empty_inv in L.
    + apply lang_cls_inv in L as (d & E & Hd). injection E as -> _. congruence.
  - assert (Hcat : lang (Cat (deriv c r1) r2) s <->
                   exists s1 s2, s = s1 ++ s2 /\ lang r1 (c :: s1) /\ lang r2 s2).
    { split.
      - intros L. apply lang_cat_inv in L as (s1 & s2 & -> & L1 & L2).
        exists s1, s2. split; [done|]. split; [by apply IH1 | done].
      - intros (s1 & s2 & -> & L1 & L2). constructor; [by apply IH1 | done]. }
    assert (Hinv : lang (Cat r1 r2) (c :: s) ->
                   (lang r1 [] /\ lang r2 (c :: s)) \/
                   exists s1 s2, s = s1 ++ s2 /\ lang r1 (c :: s1) /\ lang r2 s2).
    { intros L. apply lang_cat_inv in L as (s1 & s2 & E & L1 & L2).
      destruct s1 as [|a s1']; simpl in E.
      - subst s2. by left.
      - injection E as -> ->. right. by exists s1', s2. }
    destruct (nullable r1) eqn:Hn; split; intros L.
    + apply lang_alt_inv in L as [La | Lb].
      * apply Hcat in La as (s1 & s2 & -> & L1 & L2). by apply lang_cat_cons.
      * apply (lang_cat r1 r2 [] (c :: s)); [by apply nullable_lang | by apply IH2].
    + apply Hinv in L as [[_ L2] | L].
      * apply lang_alt_r. by apply IH2.
      * apply lang_alt_l. by apply Hcat.
    + apply Hcat in L as (s1 & s2 & -> & L1 & L2). by apply lang_cat_cons.
    + apply Hinv in L as [[L1 _] | L].
      * apply nullable_lang in L1. congruence.
      * by apply Hcat.
  - split; intros L; apply lang_alt_inv in L as [L | L].
    + apply lang_alt_l. by apply IH1.
    + apply lang_alt_r. by apply IH2.
    + apply lang_alt_l. by apply IH1.
    + apply lang_alt_r. by apply IH2.
  - split; intros L.
    + apply lang_cat_inv in L as (s1 & s2 & -> & L1 & L2).
      apply (lang_star_app r (c :: s1) s2); [by apply IH | done].
    + apply lang_star_cons in L as (s1 & s2 & -> & L1 & L2).
      constructor; [by apply IH | done].
Qed.

Lemma matches_lang r s : matches r s = true <-> lang r s.
Proof.
  revert r. induction s as [|c s IH]; intros r; simpl.
  - apply nullable_lang.
  - rewrite IH. apply deriv_lang.
Qed.

(** Every code point of a matched string is accepted by a class of the
    expression. *)
Lemma lang_alphabet r s : lang r s -> Forall (fun c => alphabet r c = true) s.
Proof.
  induction 1 as [|p c Hp|r1 r2 s1 s2 _ IH1 _ IH2|r1 r2 s _ IH|r1 r2 s _ IH|
                  |r s1 s2 _ IH1 _ IH2]; simpl in *.
  - constructor.
  - by repeat constructor.
  - apply Forall_app; split.
    + eapply Forall_impl; [apply IH1|]. simpl. intros ? ->. done.
    + eapply Forall_impl; [apply IH2|]. simpl. intros ? ->. apply orb_true_r.
  - eapply Forall_impl; [apply IH|]. simpl. intros ? ->. done.
  - eapply Forall_impl; [apply IH|]. simpl. intros ? ->. apply orb_true_r.
  - constructor.
  - apply Forall_app; split; done.
Qed.

Lemma lang_star_class p s : lang (Star (Cls p)) s -> forallb p s = true.
Proof.
  intros L. remember (Star (Cls p)) as q eqn:Eq. revert Eq.
  induction L as [| | | | | |q' s1 s2 L1 _ L2 IH2]; intros Eq; try discriminate.
  - done.
  - injection Eq as ->. apply lang_cls_inv in L1 as (c & -> & Hc). simpl.
    apply andb_true_iff. split; [done | by apply IH2].
Qed.

Lemma lang_plus_class p s :
  lang (Plus (Cls p)) s -> s <> [] /\ forallb p s = true.
Proof.
  intros L. apply lang_cat_inv in L as (s1 & s2 & -> & L1 & L2).
  apply lang_cls_inv in L1 as (c & -> & Hc). split; [done|]. simpl.
  apply andb_true_iff. split; [done | by apply lang_star_class].
Qed.

End RegexFacts.

(** ** Strings *)
Module PyStrFacts.
Import PyStr.

(** Boolean tests on code points, as arithmetic. *)
Ltac boolify :=
  unfold is_upper_az, is_lower_az, is_digit_09, ascii_space, in_range in *;
  repeat match goal with
  | H : (_ || _) = true |- _ => apply orb_true_iff in H; destruct H
  | H : (_ && _) = true |- _ => apply andb_true_iff in H; destruct H
  | H : (_ || _) = false |- _ => apply orb_false_iff in H; destruct H
  | H : (_ <=? _) = true |- _ => apply N.leb_le in H
  | H : (_ <=? _) = false |- _ => apply N.leb_gt in H
  | H : (_ <? _) = true |- _ => apply N.ltb_lt in H
  | H : (_ =? _) = true |- _ => apply N.eqb_eq in H
  | H : (_ =? _) = false |- _ => apply N.eqb_neq in H
  end.

Ltac bool_false :=
  match goal with
  | |- ?b = false => let E := fresh "E" in destruct b eqn:E; [exfalso; boolify; lia | reflexivity]
  end.

Lemma str_eqb_eq (s t : str) : str_eqb s t = true <-> s = t.
Proof.
  revert t. induction s as [|a s IH]; intros [|b t]; simpl; split; intros E;
    try done.
  - apply andb_true_iff in E as [E1 E2]. apply N.eqb_eq in E1. apply IH in E2.
    by subst.
  - injection E as -> ->. apply andb_true_iff. split; [apply N.eqb_refl | by apply IH].
Qed.

Lemma ascii_lower_fixed c : is_upper_az c = false -> ascii_lower c = c.
Proof. unfold ascii_lower. by intros ->. Qed.

Lemma ascii_lower_not_upper c : is_upper_az (ascii_lower c) = false.
Proof.
  unfold ascii_lower. destruct (is_upper_az c) eqn:E; [|done].
  boolify. bool_false.
Qed.

Lemma lstrip_zero_suffix (s : str) : exists z, s = z ++ lstrip_zero s.
Proof.
  induction s as [|c s [z IH]]; simpl.
  - by exists [].
  - destruct (c =? 48).
    + exists (c :: z). simpl. by f_equal.
    + by exists [].
Qed.

Section WithTables.
Context {U : Unicode}.

Lemma lstrip_fixed (s : str) :
  Forall (fun c => is_space c = false) s -> lstrip s = s.
Proof. destruct 1 as [|c t Hc _]; simpl; [done | by rewrite Hc]. Qed.

Lemma strip_fixed (s : str) :
  Forall (fun c => is_space c = false) s -> strip s = s.
Proof.
  intros Hs. unfold strip, rstrip. rewrite (lstrip_fixed s Hs).
  rewrite lstrip_fixed; [apply rev_involutive | by apply List.Forall_rev].
Qed.

(** What [lstrip] returns does not start with whitespace. *)
Lemma lstrip_head (s : str) c t : lstrip s = c :: t -> is_space c = false.
Proof.
  induction s as [|a s IH]; simpl; [done|].
  destruct (is_space a) eqn:Ha; [done|]. by intros [= <- _].
Qed.

(** What [strip] returns does not end with whitespace. *)
Lemma strip_last (s : str) t c : strip s = t ++ [c] -> is_space c = false.
Proof.
  unfold strip, rstrip. intros E.
  apply (f_equal (@rev char)) in E. rewrite rev_involutive, rev_app_distr in E.
  simpl in E. by apply lstrip_head in E.
Qed.

Context {HU : UnicodeSpec U}.

Lemma lower_from_fixed (s : str) : forall pre,
  Forall (fun c => c < 128 /\ is_upper_az c = false) s -> lower_from pre s = s.
Proof.
  induction s as [|c s IH]; intros pre Hs; simpl; [done|].
  inversion Hs as [|? ? [Hc Hu] Hs']; subst.
  rewrite (lower_ascii pre c s Hc), (ascii_lower_fixed c Hu). simpl.
  f_equal. by apply IH.
Qed.

Lemma lower_fixed (s : str) :
  Forall (fun c => c < 128 /\ is_upper_az c = false) s -> lower s = s.
Proof. apply lower_from_fixed. Qed.

(** A code point [lower_full] writes is no ASCII capital. *)
Lemma lower_full_not_upper pre c post d :
  In d (lower_full pre c post) -> is_upper_az d = false.
Proof.
  intros Hd. destruct (N.lt_ge_cases c 128) as [Hc|Hc].
  - rewrite (lower_ascii pre c post Hc) in Hd. destruct Hd as [<-|[]].
    apply ascii_lower_not_upper.
  - destruct (N.lt_ge_cases d 128) as [Hd'|Hd'].
    + pose proof (lower_other pre c post d Hc Hd Hd') as Hl. bool_false.
    + bool_false.
Qed.

Lemma lower_from_not_upper (s : str) : forall pre,
  Forall (fun d => is_upper_az d = false) (lower_from pre s).
Proof.
  induction s as [|c s IH]; intros pre; simpl; [constructor|].
  apply Forall_app. split; [|apply IH].
  apply List.Forall_forall. intros d Hd. by apply lower_full_not_upper in Hd.
Qed.

(** [lower] writes a final line feed only for a final line feed. *)
Lemma lower_from_last_lf (s : str) : forall pre t,
  lower_from pre s = t ++ [10] -> exists s', s = s' ++ [10].
Proof.
  induction s as [|c s IH]; intros pre t E; simpl in E.
  - by destruct t.
  - destruct s as [|c' s'].
    + simpl in E. rewrite app_nil_r in E. exists []. simpl. f_equal.
      assert (Hin : In 10 (lower_full pre c [])).
      { rewrite E. apply in_or_app. right. by left. }
      destruct (N.lt_ge_cases c 128) as [Hc|Hc].
      * rewrite (lower_ascii pre c [] Hc) in Hin. destruct Hin as [Hin|[]].
        unfold ascii_lower in Hin. destruct (is_upper_az c) eqn:Eu; [|done].
        boolify. lia.
      * assert (Hl : is_lower_az 10 = true) by (apply (lower_other pre c [] 10 Hc Hin); lia).
        discriminate.
    + assert (Hne : lower_from (pre ++ [c]) (c' :: s') <> []).
      { simpl. intros E0. apply app_eq_nil in E0 as [E0 _].
        by apply lower_nonempty in E0. }
      destruct (exists_last Hne) as (u & d & Eu).
      rewrite Eu, app_assoc in E. apply app_inj_tail in E as [_ ->].
      apply IH in Eu as (s'' & Es). exists (c :: s''). simpl. by f_equal.
Qed.

Lemma lower_strip_not_lf (x : str) t : lower (strip x) <> t ++ [10].
Proof.
  intros E. apply lower_from_last_lf in E as (s' & Es).
  apply strip_last in Es. rewrite space_ascii in Es; [discriminate | lia].
Qed.

End WithTables.

(** The ASCII tables are an instance of the interface. *)
Lemma ascii_tables_spec : UnicodeSpec ascii_tables.
Proof.
  split; simpl; try done.
  intros _ c _ d Hc [<-|[]] Hd. unfold ascii_lower in Hd.
  destruct (is_upper_az c); lia.
Qed.

End PyStrFacts.

(** ** The email cleaner *)
Module EmailCleanerFacts.
Import PyStr Regex EmailCleaner PyStrFacts RegexFacts.

(** The pattern only accepts ASCII, and no whitespace. *)
Lemma email_alphabet_ascii c :
  alphabet EMAIL_PATTERN c = true -> c < 128 /\ ascii_space c = false.
Proof.
  unfold EMAIL_PATTERN, Plus, AtLeast2. simpl.
  unfold local_class, domain_class, letter_class, at_sign, dot.
  intros Hc. split; [|bool_false]; boolify; lia.
Qed.

Lemma re_match_anchored_lang r s :
  re_match_anchored r s = true <->
  lang r s \/ exists t, s = t ++ [10] /\ lang r t.
Proof.
  unfold re_match_anchored. rewrite orb_true_iff, matches_lang. split.
  - intros [L | L]; [by left | right].
    destruct (rev s) as [|c t] eqn:E; [done|].
    apply andb_true_iff in L as [Hc L]. apply N.eqb_eq in Hc. subst c.
    apply matches_lang in L. exists (rev t). split; [|done].
    apply (f_equal (@rev char)) in E. rewrite rev_involutive in E. by rewrite E.
  - intros [L | (t & -> & L)]; [by left | right].
    rewrite rev_app_distr. simpl. rewrite rev_involutive. by apply matches_lang.
Qed.

(** A string of the pattern's language has the shape the specification
    describes. *)
Lemma email_lang_shape s : lang EMAIL_PATTERN s -> email_shape s.
Proof.
  unfold EMAIL_PATTERN. intros L.
  apply lang_cat_inv in L as (loc & s1 & -> & Lloc & L).
  apply lang_cat_inv in L as (a & s2 & -> & La & L).
  apply lang_cat_inv in L as (dom & s3 & -> & Ldom & L).
  apply lang_cat_inv in L as (d & tld & -> & Ld & Ltld).
  apply lang_plus_class in Lloc as [Hloc1 Hloc2].
  apply lang_plus_class in Ldom as [Hdom1 Hdom2].
  apply lang_cls_inv in La as (ca & -> & Ha). apply N.eqb_eq in Ha. subst ca.
  apply lang_cls_inv in Ld as (cd & -> & Hd). apply N.eqb_eq in Hd. subst cd.
  unfold AtLeast2 in Ltld.
  apply lang_cat_inv in Ltld as (t1 & t' & -> & L1 & Ltld).
  apply lang_cat_inv in Ltld as (t2 & t3 & -> & L2 & L3).
  apply lang_cls_inv in L1 as (c1 & -> & H1).
  apply lang_cls_inv in L2 as (c2 & -> & H2).
  apply lang_star_class in L3.
  exists loc, dom, ([c1] ++ [c2] ++ t3). repeat split; try done.
  - simpl. lia.
  - simpl. by rewrite H1, H2, L3.
Qed.

Section WithTables.
Context {U : Unicode} {HU : UnicodeSpec U}.

(** What [clean] returns besides the sentinel: the trimmed, lowered input,
    which the pattern matched up to its end. *)
Lemma clean_cases (x : str) :
  clean x = nan \/
  (clean x = lower (strip x) /\ lang EMAIL_PATTERN (lower (strip x))).
Proof.
  unfold clean. destruct (is_empty x); [by left|].
  destruct (re_match_anchored EMAIL_PATTERN (lower (strip x))) eqn:E; simpl;
    [right | by left].
  split; [done|].
  apply re_match_anchored_lang in E as [L | (t & Et & _)]; [done|].
  by apply lower_strip_not_lf in Et.
Qed.

(** A matched, lowered string is left alone by [strip] and [lower]. *)
Lemma matched_lowered_fixed (s : str) :
  lang EMAIL_PATTERN s -> Forall (fun c => is_upper_az c = false) s ->
  strip s = s /\ lower s = s.
Proof.
  intros L Hlow. apply lang_alphabet in L.
  split.
  - apply strip_fixed. eapply Forall_impl; [apply L|]. simpl.
    intros c Hc. apply email_alphabet_ascii in Hc as [Hc Hs].
    by rewrite space_ascii.
  - apply lower_fixed. rewrite List.Forall_forall in *. intros c Hc.
    split; [|by apply Hlow]. by apply email_alphabet_ascii, L.
Qed.

Lemma clean_nan : clean nan = nan.
Proof.
  assert (Hs : strip nan = nan).
  { apply strip_fixed. repeat constructor; by rewrite space_ascii. }
  assert (Hl : lower nan = nan).
  { apply lower_fixed. repeat constructor. }
  unfold clean. simpl is_empty. cbv iota. by rewrite Hs, Hl.
Qed.

End WithTables.

End EmailCleanerFacts.

(** ** The phone cleaner *)
Module PhoneCleanerFacts.
Import PyStr PhoneCleaner PyStrFacts.

Section WithTables.
Context {U : Unicode}.

Lemma extract_digits_decimal (phone : str) :
  forallb is_decimal (extract_digits phone) = true.
Proof.
  unfold extract_digits.
  destruct (is_empty phone || str_eqb (lower phone) nan); [done|].
  apply forallb_forall. intros c Hc. by apply filter_In in Hc as [_ Hc].
Qed.

Lemma clean_zeroes_decimal (phone : str) :
  forallb is_decimal (clean_zeroes phone) = true.
Proof.
  unfold clean_zeroes.
  pose proof (extract_digits_decimal phone) as Hd.
  destruct (lstrip_zero_suffix (extract_digits phone)) as [z Hz].
  rewrite Hz, forallb_app in Hd. by apply andb_true_iff in Hd as [_ Hd].
Qed.

(** On a string of digits long enough to be valid, [extract_digits] changes
    nothing. *)
Lemma extract_digits_fixed (s : str) :
  forallb is_decimal s = true -> (10 <= length (extract_digits s))%nat ->
  extract_digits s = s.
Proof.
  unfold extract_digits. intros Hs Hlen.
  destruct (is_empty s || str_eqb (lower s) nan); [simpl in Hlen; lia|].
  clear Hlen. induction s as [|c s IH]; simpl in *; [done|].
  apply andb_true_iff in Hs as [-> Hs]. f_equal. by apply IH.
Qed.

End WithTables.

End PhoneCleanerFacts.

(** ** The sale predicates *)
Module SalesValidatorFacts.
Import PyVal SalesValidator.

Lemma get_delete_ne (s : sale) (k k' : string) :
  k <> k' -> get (delete k s) k' = get s k'.
Proof. intros Hne. unfold get. by rewrite lookup_delete_ne. Qed.

Lemma get_delete_eq (s : sale) (k : string) : get (delete k s) k = PNone.
Proof. unfold get. by rewrite lookup_delete_eq. Qed.

Lemma underscore_ne (name : string) : name <> String "_" name.
Proof.
  intros E. apply (f_equal String.length) in E. simpl in E. lia.
Qed.

(** A falsy value under a public name is read exactly as if the name were
    not in the record, whatever field is looked up. *)
Lemma field_delete_falsy (s : sale) (name : string) (v : pyval) (f : string) :
  s !! name = Some v -> truthy v = false -> public_name name ->
  field (delete name s) f = field s f.
Proof.
  intros Hv Hf Hp. unfold field.
  rewrite (get_delete_ne s name (String "_" f)) by apply Hp.
  destruct (decide (name = f)) as [<-|Hne].
  - rewrite get_delete_eq. unfold get at 2. rewrite Hv. simpl.
    unfold py_or. simpl. by rewrite Hf.
  - by rewrite get_delete_ne.
Qed.

End SalesValidatorFacts.

(** ** The reconciliation *)
Module FrameFacts.
Import Frame.

Local Open Scope Z_scope.

Section Tables.
Context {cell : Type} `{EqDecision cell} {keys : MergeKeys cell}.
Variable NA : cell.
Variable parse_datetime : list cell -> cell -> option Z.

Abbreviation DataFrame := (DataFrame (cell := cell)).
Abbreviation column := (column (cell := cell)).

Implicit Types df : DataFrame.

Lemma to_datetime_length (l : list cell) :
  length (to_datetime parse_datetime l) = length l.
Proof. apply length_map. Qed.




(** [ensure_datetime] touches the column it is given and nothing else. *)
Lemma ensure_datetime_spec df col c :
  columns df !! col = Some c ->
  ensure_datetime parse_datetime df col =
    Some {| index := index df;
            columns := <[col := Datetime (coerce_column parse_datetime c)]> (columns df) |}.
Proof.
  intros Hc. unfold ensure_datetime. rewrite Hc. destruct c as [l|l]; simpl; [|done].
  destruct df as [idx cols]. simpl in *. by rewrite insert_id.
Qed.







(** The labels the loop visits are rows of the join. *)
Lemma invalid_from_range (merged : list merged_row) : forall i idx,
  In idx (invalid_from i merged) ->
  exists j, idx = Z.of_nat (i + j) /\ (j < length merged)%nat.
Proof.
  induction merged as [|r rest IH]; intros i idx Hin; simpl in *; [done|].
  assert (Hrest : In idx (invalid_from (S i) rest) ->
                  exists j, idx = Z.of_nat (i + j) /\ (j < S (length rest))%nat).
  { intros H'. apply IH in H' as (j & -> & Hj). exists (S j). split; [f_equal|]; lia. }
  destruct (invalid_mask r); [|by apply Hrest].
  destruct Hin as [<-|Hin]; [|by apply Hrest].
  exists 0%nat. split; [f_equal|]; lia.
Qed.

Lemma invalid_sales_idx_in_range (merged : list merged_row) :
  Forall (fun idx => is_Some (merged !! Z.to_nat idx)) (invalid_sales_idx merged).
Proof.
  apply List.Forall_forall. intros idx Hin.
  apply invalid_from_range in Hin as (j & -> & Hj). simpl.
  rewrite Nat2Z.id. by apply lookup_lt_is_Some.
Qed.

Lemma missing_columns_nil df required :
  missing_columns df required = [] ->
  forall col, In col required -> is_Some (columns df !! col).
Proof.
  unfold missing_columns. intros Hnil col Hin.
  destruct (has_column df col) eqn:Hc.
  - unfold has_column in Hc. by apply bool_decide_eq_true in Hc.
  - assert (Hf : In col (List.filter (fun col => negb (has_column df col)) required)).
    { apply filter_In. split; [done|]. by rewrite Hc. }
    rewrite Hnil in Hf. destruct Hf.
Qed.

Lemma missing_columns_cons df required col :
  In col required -> has_column df col = false ->
  exists c rest, missing_columns df required = c :: rest.
Proof.
  intros Hin Hc. unfold missing_columns.
  assert (Hf : In col (List.filter (fun col => negb (has_column df col)) required)).
  { apply filter_In. split; [done|]. by rewrite Hc. }
  destruct (List.filter _ required) as [|c rest]; [destruct Hf | eauto].
Qed.

Lemma coerce_column_length (c : column) :
  length (coerce_column parse_datetime c) = column_length c.
Proof. destruct c; simpl; [done | apply to_datetime_length]. Qed.


(** *** Which rows of the join are flagged *)

Lemma merge_sale_source (emps : list (cell * option Z)) own p (s : cell) d r :
  In r (merge_sale emps own p s d) -> m_source r = p /\ m_sale_date r = d.
Proof.
  unfold merge_sale. destruct (matching emps s) as [|e ms].
  - by intros [<-|[]].
  - intros Hin. apply in_map_iff in Hin as (e' & <- & _). done.
Qed.

(** The rows built from one sale hold a flagged one exactly when the sale
    joins an employee row hired after it. *)
Lemma merge_sale_flagged (emps : list (cell * option Z)) p (s : cell) d :
  (exists r, In r (merge_sale emps None p s d) /\ invalid_mask r = true)
  <-> flagged emps s d = true.
Proof.
  unfold merge_sale, flagged. destruct (matching emps s) as [|e ms] eqn:Hm.
  - split; [|done]. intros (r & [<-|[]] & Hr). unfold invalid_mask in Hr. simpl in Hr.
    by destruct d.
  - rewrite existsb_exists. split.
    + intros (r & Hin & Hr). apply in_map_iff in Hin as (e' & <- & He'). by exists e'.
    + intros (e' & He' & Hlt).
      exists {| m_source := p; m_sale_date := d; m_hire_date := e'.2 |}.
      split; [|done]. apply in_map_iff. by exists e'.
Qed.

Lemma merge_from_In (emps : list (cell * option Z)) (sellers : list cell) :
  forall q dates r,
  In r (merge_from emps None q sellers dates) <->
  exists k s d, sellers !! k = Some s /\ dates !! k = Some d /\
    In r (merge_sale emps None (q + k) s d).
Proof.
  induction sellers as [|s0 sellers IH]; intros q [|d0 dates] r; simpl.
  - split; [done | by intros (k & s & d & Hs & _)].
  - split; [done | by intros (k & s & d & Hs & _)].
  - split; [done | by intros (k & s & d & _ & Hd & _)].
  - rewrite in_app_iff, IH. split.
    + intros [Hin | (k & s & d & Hs & Hd & Hin)].
      * exists 0%nat, s0, d0. by rewrite Nat.add_0_r.
      * exists (S k), s, d. by rewrite Nat.add_succ_r.
    + intros ([|k] & s & d & Hs & Hd & Hin); simpl in *.
      * injection Hs as ->. injection Hd as ->. left. by rewrite Nat.add_0_r in Hin.
      * right. exists k, s, d. by rewrite Nat.add_succ_r in Hin.
Qed.

Lemma flagged_spec (emps : list (cell * option Z)) (s : cell) d :
  flagged emps s d = true <-> exists e, In e emps /\ e.1 = s /\ dt_lt d e.2 = true.
Proof.
  unfold flagged, matching. rewrite existsb_exists. split.
  - intros (e & He & Hlt). apply filter_In in He as [He Heq].
    apply bool_decide_eq_true in Heq. by exists e.
  - intros (e & He & Heq & Hlt). exists e. split; [|done].
    apply filter_In. split; [done|]. by apply bool_decide_eq_true.
Qed.

(** *** When the join has one row per sale *)

Section Aligned.
Variable emps : list (cell * option Z).

Lemma merge_from_joined_rows (sellers : list cell) : forall p dates,
  Forall (fun s => (length (matching emps s) <= 1)%nat) sellers ->
  merge_from emps None p sellers dates = joined_rows emps p sellers dates.
Proof.
  induction sellers as [|s sellers IH]; intros p [|d dates] Hone; simpl; try done.
  inversion Hone as [|? ? Hs Hrest]; subst.
  rewrite (IH (S p) dates Hrest). unfold merge_sale, joined_row.
  destruct (matching emps s) as [|e [|e' ms]]; simpl in *; try done. lia.
Qed.

Lemma flagged_joined_row p (s : cell) d :
  (length (matching emps s) <= 1)%nat ->
  invalid_mask (joined_row emps p s d) = flagged emps s d.
Proof.
  unfold invalid_mask, flagged, joined_row. simpl.
  destruct (matching emps s) as [|e [|e' ms]]; simpl; intros Hone.
  - by destruct d.
  - by rewrite orb_false_r.
  - lia.
Qed.

Lemma joined_rows_length (sellers : list cell) : forall p dates,
  length sellers = length dates ->
  length (joined_rows emps p sellers dates) = length sellers.
Proof.
  induction sellers as [|s sellers IH]; intros p [|d dates] Hlen; simpl in *; try done.
  f_equal. apply IH. lia.
Qed.

Lemma joined_rows_source (sellers : list cell) : forall p dates,
  length sellers = length dates ->
  map m_source (joined_rows emps p sellers dates) = seq p (length sellers).
Proof.
  induction sellers as [|s sellers IH]; intros p [|d dates] Hlen; simpl in *; try done.
  f_equal. apply IH. lia.
Qed.

Lemma joined_rows_lookup (sellers : list cell) : forall p dates k s d,
  sellers !! k = Some s -> dates !! k = Some d ->
  joined_rows emps p sellers dates !! k = Some (joined_row emps (p + k) s d).
Proof.
  induction sellers as [|s0 sellers IH]; intros p [|d0 dates] [|k] s d Hs Hd;
    simpl in *; try done.
  - injection Hs as ->. injection Hd as ->. by rewrite Nat.add_0_r.
  - rewrite (IH (S p) dates k s d Hs Hd). do 2 f_equal. lia.
Qed.

(** A label beyond those of the index writes nothing. *)
Lemma set_where_above (m : nat) : forall a label (v : cell) l,
  label < Z.of_nat a -> set_where (map Z.of_nat (seq a m)) label v l = l.
Proof.
  induction m as [|m IH]; intros a label v [|c l] Hlt; simpl; try done.
  rewrite bool_decide_eq_false_2 by lia. f_equal. apply IH. lia.
Qed.

(** On a default index, the label [p] writes the row at position [p]. *)
Lemma set_where_range (seen : list cell) : forall a m (v c : cell) todo,
  m = (length seen + S (length todo))%nat ->
  set_where (map Z.of_nat (seq a m)) (Z.of_nat (a + length seen)) v (seen ++ c :: todo)
  = seen ++ v :: todo.
Proof.
  induction seen as [|c0 seen IH]; intros a m v c todo ->; simpl.
  - rewrite bool_decide_eq_true_2 by (f_equal; lia). f_equal.
    apply set_where_above. lia.
  - rewrite bool_decide_eq_false_2 by lia. f_equal.
    replace (a + S (length seen))%nat with (S a + length seen)%nat by lia.
    by apply IH.
Qed.

Lemma elem_of_range_index n p : (p < n)%nat -> Z.of_nat p ∈ range_index n.
Proof.
  intros Hp. unfold range_index. apply list_elem_of_In, in_map, in_seq. lia.
Qed.

(** The loop over a join with one row per sale, on a table with the default
    index: the sales before position [p] were visited ([seen]), those from [p]
    on are still to visit. *)
Lemma reassign_all_aligned (cols : gmap string column) (n : nat)
    (merged : list merged_row) (todo_s : list cell) :
  forall todo_d seen p,
  length seen = p -> length todo_s = length todo_d -> n = (p + length todo_s)%nat ->
  Forall (fun s => (length (matching emps s) <= 1)%nat) todo_s ->
  (forall k s d, todo_s !! k = Some s -> todo_d !! k = Some d ->
     merged !! (p + k)%nat = Some (joined_row emps (p + k) s d)) ->
  reassign_all NA merged emps
    {| index := range_index n;
       columns := <["seller_employee_id" := Object (seen ++ todo_s)]> cols |}
    (invalid_from p (joined_rows emps p todo_s todo_d))
  = Some {| index := range_index n;
            columns := <["seller_employee_id" :=
                           Object (seen ++ zip_with (reassigned emps) todo_s todo_d)]> cols |}.
Proof.
  induction todo_s as [|s ss IH]; intros [|d ds] seen p Hseen Hlen Hn Hone Hrows;
    simpl in *; try done.
  inversion Hone as [|? ? Hs Hss]; subst.
  assert (Hnext : forall c,
    reassign_all NA merged emps
      {| index := range_index (length seen + S (length ss));
         columns := <["seller_employee_id" := Object (seen ++ c :: ss)]> cols |}
      (invalid_from (S (length seen)) (joined_rows emps (S (length seen)) ss ds))
    = Some {| index := range_index (length seen + S (length ss));
              columns := <["seller_employee_id" :=
                Object (seen ++ c :: zip_with (reassigned emps) ss ds)]> cols |}).
  { intros c.
    rewrite (cons_middle c seen ss), (cons_middle c seen (zip_with _ ss ds)), !app_assoc.
    apply IH.
    - rewrite length_app. simpl. lia.
    - lia.
    - lia.
    - done.
    - intros k s' d' Hs' Hd'.
      replace (S (length seen) + k)%nat with (length seen + S k)%nat by lia.
      by apply Hrows. }
  rewrite flagged_joined_row by done. unfold reassigned.
  destruct (flagged emps s d); [|apply Hnext].
  simpl. unfold reassign. rewrite Nat2Z.id.
  specialize (Hrows 0%nat s d eq_refl eq_refl). rewrite Nat.add_0_r in Hrows.
  rewrite Hrows. simpl.
  destruct (valid_emps emps d) as [|new_emp_id rest]; simpl; [apply Hnext|].
  unfold at_set. simpl. rewrite lookup_insert_eq.
  rewrite bool_decide_eq_true_2 by (apply elem_of_range_index; lia).
  simpl. rewrite insert_insert_eq.
  pose proof (set_where_range seen 0 _ new_emp_id s ss eq_refl) as Hw.
  change (0 + length seen)%nat with (length seen) in Hw.
  unfold range_index at 2. rewrite Hw.
  apply Hnext.
Qed.

End Aligned.

Lemma has_column_true df col c : columns df !! col = Some c -> has_column df col = true.
Proof. intros Hc. unfold has_column. apply bool_decide_eq_true. by rewrite Hc. Qed.

(** *** The steps of [clean_data] when the four columns are there *)

(** The join of the two tables once their dates were coerced. *)
Lemma merge_coerced (sales_df employees_df : DataFrame)
    (sellers ids : list cell) (sd hd : column) :
  columns sales_df !! "seller_employee_id" = Some (Object sellers) ->
  columns sales_df !! "sale_date" = Some sd ->
  columns employees_df !! "employee_id" = Some (Object ids) ->
  columns employees_df !! "hire_date" = Some hd ->
  merge_accepts sellers ids = true ->
  (forall l, columns sales_df !! "hire_date" <> Some (Object l)) ->
  merge {| index := index sales_df;
           columns := <["sale_date" := Datetime (coerce_column parse_datetime sd)]>
                        (columns sales_df) |}
        {| index := index employees_df;
           columns := <["hire_date" := Datetime (coerce_column parse_datetime hd)]>
                        (columns employees_df) |}
  = Some (merge_from (zip ids (coerce_column parse_datetime hd)) (own_hire sales_df) 0
            sellers (coerce_column parse_datetime sd)).
Proof.
  intros Hsc Hsd Hec Hhd Hacc Hown.
  unfold merge, get_object, get_datetime, own_hire. simpl.
  rewrite (lookup_insert_ne (columns sales_df) "sale_date" "seller_employee_id") by done.
  rewrite Hsc. simpl. rewrite lookup_insert_eq. simpl.
  rewrite (lookup_insert_ne (columns employees_df) "hire_date" "employee_id") by done.
  rewrite Hec. simpl. rewrite lookup_insert_eq. simpl. rewrite Hacc.
  rewrite (lookup_insert_ne (columns sales_df) "sale_date" "hire_date") by done.
  destruct (columns sales_df !! "hire_date") as [[own|own]|] eqn:Hh; try done.
  by destruct (Hown own).
Qed.

(** [clean_data] up to its loop. *)
Lemma clean_data_steps (sales_df employees_df : DataFrame)
    (sellers ids : list cell) (sd hd : column) :
  columns sales_df !! "seller_employee_id" = Some (Object sellers) ->
  columns sales_df !! "sale_date" = Some sd ->
  columns employees_df !! "employee_id" = Some (Object ids) ->
  columns employees_df !! "hire_date" = Some hd ->
  merge_accepts sellers ids = true ->
  (forall l, columns sales_df !! "hire_date" <> Some (Object l)) ->
  let emps := zip ids (coerce_column parse_datetime hd) in
  let dates := coerce_column parse_datetime sd in
  let merged := merge_from emps (own_hire sales_df) 0 sellers dates in
  clean_data NA parse_datetime sales_df employees_df =
    (sales_df' ← reassign_all NA merged emps
                   {| index := index sales_df;
                      columns := <["sale_date" := Datetime dates]> (columns sales_df) |}
                   (invalid_sales_idx merged);
     Some (sales_df', [])).
Proof.
  intros Hsc Hsd Hec Hhd Hacc Hown emps dates merged.
  unfold clean_data, missing_columns, required_sales_cols, required_employee_cols.
  simpl.
  rewrite (has_column_true _ _ _ Hsd), (has_column_true _ _ _ Hsc),
    (has_column_true _ _ _ Hec), (has_column_true _ _ _ Hhd). simpl.
  rewrite (ensure_datetime_spec sales_df "sale_date" sd Hsd). simpl.
  rewrite (ensure_datetime_spec employees_df "hire_date" hd Hhd). simpl.
  rewrite (merge_coerced sales_df employees_df sellers ids sd hd) by done. simpl.
  unfold get_object, get_datetime. simpl.
  rewrite (lookup_insert_ne (columns employees_df) "hire_date" "employee_id") by done.
  rewrite Hec. simpl. rewrite lookup_insert_eq. simpl. reflexivity.
Qed.

(** With at most one employee row per seller the join has one row per sale,
    in the order of the sales, whether the sales table has a [hire_date]
    column of its own or not. *)
Lemma merge_from_sources (emps : list (cell * option Z)) own (sellers : list cell) :
  forall p dates,
  Forall (fun s => (length (matching emps s) <= 1)%nat) sellers ->
  length sellers = length dates ->
  map m_source (merge_from emps own p sellers dates) = seq p (length sellers).
Proof.
  induction sellers as [|s sellers IH]; intros p [|d dates] Hone Hlen; simpl in *; try done.
  inversion Hone as [|? ? Hs Hrest]; subst.
  rewrite map_app, (IH (S p) dates Hrest) by lia. unfold merge_sale.
  destruct (matching emps s) as [|e [|e' ms]]; simpl in *; try done. lia.
Qed.

(** On a default index the label [a + p] is that of the row at position [p],
    and of no other. *)
Lemma set_where_insert (l : list cell) : forall a p (v : cell),
  set_where (map Z.of_nat (seq a (length l))) (Z.of_nat (a + p)) v l = <[p := v]> l.
Proof.
  induction l as [|c l IH]; intros a p v; simpl; [done|].
  destruct p as [|p]; simpl.
  - rewrite bool_decide_eq_true_2 by (f_equal; lia). f_equal.
    apply set_where_above. lia.
  - rewrite bool_decide_eq_false_2 by lia. f_equal.
    replace (a + S p)%nat with (S a + p)%nat by lia. apply IH.
Qed.

(** A write through [at] on a table with the default index. *)
Lemma at_set_range df (l : list cell) (p : nat) (v : cell) :
  index df = range_index (length (index df)) ->
  columns df !! "seller_employee_id" = Some (Object l) ->
  length l = length (index df) -> (p < length l)%nat ->
  at_set NA df (Z.of_nat p) "seller_employee_id" v
  = Some {| index := index df;
            columns := <["seller_employee_id" := Object (<[p := v]> l)]> (columns df) |}.
Proof.
  intros Hidx Hl Hlen Hp. unfold at_set. rewrite Hl.
  rewrite bool_decide_eq_true_2
    by (rewrite Hidx; apply elem_of_range_index; lia).
  do 4 f_equal. rewrite Hidx, <- Hlen. unfold range_index.
  apply (set_where_insert l 0 p v).
Qed.

(** The loop on a table with the default index and a join with one row per
    sale: the sales before position [p] were visited ([seen]), those from [p]
    on are still to visit, with their rows of the join. *)
Lemma reassign_all_on_range (emps : list (cell * option Z)) (cols : gmap string column)
    (n : nat) (merged : list merged_row) (todo_r : list merged_row) :
  forall (todo_s seen : list cell) p,
  length seen = p -> length todo_r = length todo_s -> n = (p + length todo_s)%nat ->
  (forall k r, todo_r !! k = Some r -> merged !! (p + k)%nat = Some r) ->
  reassign_all NA merged emps
    {| index := range_index n;
       columns := <["seller_employee_id" := Object (seen ++ todo_s)]> cols |}
    (invalid_from p todo_r)
  = Some {| index := range_index n;
            columns := <["seller_employee_id" :=
                           Object (seen ++ zip_with (written emps) todo_r todo_s)]> cols |}.
Proof.
  induction todo_r as [|r rs IH]; intros [|s ss] seen p Hseen Hlen Hn Hrows;
    simpl in *; try done.
  subst p n.
  assert (Hnext : forall c,
    reassign_all NA merged emps
      {| index := range_index (length seen + S (length ss));
         columns := <["seller_employee_id" := Object (seen ++ c :: ss)]> cols |}
      (invalid_from (S (length seen)) rs)
    = Some {| index := range_index (length seen + S (length ss));
              columns := <["seller_employee_id" :=
                Object (seen ++ c :: zip_with (written emps) rs ss)]> cols |}).
  { intros c.
    rewrite (cons_middle c seen ss), (cons_middle c seen (zip_with _ rs ss)), !app_assoc.
    apply IH.
    - rewrite length_app. simpl. lia.
    - lia.
    - lia.
    - intros k r' Hr'.
      replace (S (length seen) + k)%nat with (length seen + S k)%nat by lia.
      by apply Hrows. }
  unfold written. destruct (invalid_mask r); [|apply Hnext].
  simpl. unfold reassign. rewrite Nat2Z.id.
  specialize (Hrows 0%nat r eq_refl). rewrite Nat.add_0_r in Hrows.
  rewrite Hrows. simpl.
  destruct (valid_emps emps (m_sale_date r)) as [|new_emp_id rest]; simpl; [apply Hnext|].
  unfold at_set. simpl. rewrite lookup_insert_eq.
  rewrite bool_decide_eq_true_2 by (apply elem_of_range_index; lia).
  simpl. rewrite insert_insert_eq.
  pose proof (set_where_range seen 0 _ new_emp_id s ss eq_refl) as Hw.
  change (0 + length seen)%nat with (length seen) in Hw.
  unfold range_index at 2. rewrite Hw.
  apply Hnext.
Qed.

End Tables.

End FrameFacts.

(** * The claims *)

Import PyStr PyVal Frame.

(** C3, as the code has it.  For every input string
    [phone_clean_and_validate] returns the sentinel "0000000000", or a string
    of exactly 10 digits, or a string of exactly 11 digits that begins with
    "1": [phone_is_valid] accepts both shapes and the cleaned digits are
    returned as they are. *)
Theorem phone_clean_and_validate_shapes {U : Unicode} (phone : str) :
  PhoneCleaner.phone_clean_and_validate phone = PhoneCleaner.sentinel \/
  (length (PhoneCleaner.phone_clean_and_validate phone) = 10%nat /\
   forallb is_decimal (PhoneCleaner.phone_clean_and_validate phone) = true) \/
  (length (PhoneCleaner.phone_clean_and_validate phone) = 11%nat /\
   forallb is_decimal (PhoneCleaner.phone_clean_and_validate phone) = true /\
   startswith_one (PhoneCleaner.phone_clean_and_validate phone) = true).
Proof.
  unfold PhoneCleaner.phone_clean_and_validate.
  set (cleaned := PhoneCleaner.clean_zeroes (PhoneCleaner.extract_digits phone)).
  destruct (is_empty phone || str_eqb (lower phone) PhoneCleaner.nan); [by left|].
  simpl. destruct (PhoneCleaner.phone_is_valid cleaned) eqn:Hv; simpl; [|by left].
  destruct (is_empty cleaned); simpl; [by left|]. right.
  pose proof (PhoneCleanerFacts.clean_zeroes_decimal
                (PhoneCleaner.extract_digits phone)) as Hd.
  fold cleaned in Hd.
  unfold PhoneCleaner.phone_is_valid in Hv.
  destruct (length (PhoneCleaner.extract_digits cleaned) =? 10)%nat eqn:H10.
  - apply Nat.eqb_eq in H10.
    rewrite PhoneCleanerFacts.extract_digits_fixed in H10 by (done || lia).
    by left.
  - apply andb_prop in Hv as [H11 H1].
    destruct (length (PhoneCleaner.extract_digits cleaned) =? 11)%nat eqn:H11';
      [|done].
    apply Nat.eqb_eq in H11'.
    assert (Hfix : PhoneCleaner.extract_digits cleaned = cleaned)
      by (apply PhoneCleanerFacts.extract_digits_fixed; [done | lia]).
    rewrite Hfix in *. destruct (startswith_one cleaned) eqn:Hs; [|done].
    by right.
Qed.

(** C3, as stated, fails: the eleven digits "12345678901" pass
    [phone_is_valid] and come back unchanged, a string of length 11 that is not
    the sentinel. *)
Lemma phone_clean_and_validate_eleven_digits :
  PhoneCleaner.phone_clean_and_validate (U := ascii_tables) (str_of "12345678901")
    = str_of "12345678901"
  /\ length (PhoneCleaner.phone_clean_and_validate (U := ascii_tables)
               (str_of "12345678901")) = 11%nat.
Proof. split; reflexivity. Qed.

(** C8.  For every input string, [clean] returns the sentinel "nan" or a
    string that the email pattern matches (a local part over the ASCII class,
    an at sign, a domain, a dot and at least two letters) and that is
    lowercase; and [clean (clean x) = clean x]. *)
Theorem clean_valid_or_nan_and_idempotent {U : Unicode} (HU : UnicodeSpec U) (x : str) :
  (EmailCleaner.clean x = EmailCleaner.nan \/
   (Regex.re_match_anchored EmailCleaner.EMAIL_PATTERN (EmailCleaner.clean x) = true /\
    EmailCleaner.email_shape (EmailCleaner.clean x) /\
    lower (EmailCleaner.clean x) = EmailCleaner.clean x /\
    Forall (fun c => is_upper_az c = false) (EmailCleaner.clean x)))
  /\ EmailCleaner.clean (EmailCleaner.clean x) = EmailCleaner.clean x.
Proof.
  destruct (EmailCleanerFacts.clean_cases x) as [E | [E L]].
  - split; [by left|]. rewrite E. apply EmailCleanerFacts.clean_nan.
  - assert (Hlow : Forall (fun c => is_upper_az c = false) (lower (strip x)))
      by apply PyStrFacts.lower_from_not_upper.
    destruct (EmailCleanerFacts.matched_lowered_fixed _ L Hlow) as [Hs Hl].
    assert (Hm : Regex.re_match_anchored EmailCleaner.EMAIL_PATTERN (lower (strip x)) = true).
    { apply EmailCleanerFacts.re_match_anchored_lang. by left. }
    rewrite E. split.
    + right. repeat split; try done. by apply EmailCleanerFacts.email_lang_shape.
    + unfold EmailCleaner.clean at 1.
      destruct (lower (strip x)) as [|c t] eqn:Ec.
      * apply RegexFacts.matches_lang in L. discriminate.
      * simpl is_empty. cbv iota. rewrite Hs, Hl, Hm. reflexivity.
Qed.

(** C8 at the input of the repository's test: the ASCII tables meet the
    interface, and "  TEST@Example.com " is cleaned to "test@example.com". *)
Lemma clean_valid_or_nan_and_idempotent_witness :
  (EmailCleaner.clean (U := ascii_tables) (str_of "  TEST@Example.com ")
     = EmailCleaner.nan \/
   (Regex.re_match_anchored EmailCleaner.EMAIL_PATTERN
      (EmailCleaner.clean (U := ascii_tables) (str_of "  TEST@Example.com ")) = true /\
    EmailCleaner.email_shape
      (EmailCleaner.clean (U := ascii_tables) (str_of "  TEST@Example.com ")) /\
    lower (U := ascii_tables)
      (EmailCleaner.clean (U := ascii_tables) (str_of "  TEST@Example.com "))
      = EmailCleaner.clean (U := ascii_tables) (str_of "  TEST@Example.com ") /\
    Forall (fun c => is_upper_az c = false)
      (EmailCleaner.clean (U := ascii_tables) (str_of "  TEST@Example.com "))))
  /\ EmailCleaner.clean (U := ascii_tables)
       (EmailCleaner.clean (U := ascii_tables) (str_of "  TEST@Example.com "))
     = EmailCleaner.clean (U := ascii_tables) (str_of "  TEST@Example.com ").
Proof.
  exact (clean_valid_or_nan_and_idempotent (U := ascii_tables)
           PyStrFacts.ascii_tables_spec (str_of "  TEST@Example.com ")).
Defined.

(** The test of the repository: [clean("  TEST@Example.com ")]. *)
Example clean_test_example :
  EmailCleaner.clean (U := ascii_tables) (str_of "  TEST@Example.com ")
    = str_of "test@example.com".
Proof. reflexivity. Qed.

(** The tests of the repository: [phone_clean_and_validate("123-456-7890")]
    and [phone_clean_and_validate("-1234567890")]. *)
Example phone_test_examples :
  PhoneCleaner.phone_clean_and_validate (U := ascii_tables) (str_of "123-456-7890")
    = str_of "1234567890" /\
  PhoneCleaner.phone_clean_and_validate (U := ascii_tables) (str_of "-1234567890")
    = str_of "1234567890".
Proof. split; reflexivity. Qed.

(** The tests of the repository and the examples of the specification for
    [validate_total_price] and [validate_prices]. *)
Example validate_total_price_examples :
  SalesValidator.validate_total_price SaleFixtures.sale_2_10_20 = true /\
  SalesValidator.validate_total_price SaleFixtures.sale_2_10_15 = false /\
  SalesValidator.validate_total_price SaleFixtures.sale_2_10_2002 = false.
Proof. repeat split; vm_compute; reflexivity. Qed.

Example validate_prices_examples :
  SalesValidator.validate_prices SaleFixtures.prices_10_20 = true /\
  SalesValidator.validate_prices SaleFixtures.prices_minus1_20 = false.
Proof. repeat split; vm_compute; reflexivity. Qed.

(** C6, where the code departs from it.  With [quantity = 0],
    [unit_price = 10.0] and [total_price = 0.0] all three operands are present
    and the total is exactly [quantity * unit_price], yet
    [validate_total_price] answers [False]: the zero quantity is falsy, so
    [sale.get("quantity") or sale.get("_quantity")] is [None]. *)
Example validate_total_price_zero_quantity :
  SalesValidator.field SaleFixtures.sale_nothing_sold "quantity" = PNone /\
  SalesValidator.validate_total_price SaleFixtures.sale_nothing_sold = false.
Proof. split; vm_compute; reflexivity. Qed.

(** C7, where the code departs from it.  With [unit_price = 0.0] and
    [total_price = 20.0] both prices are present and non-negative, yet
    [validate_prices] answers [False]: the zero price is falsy and is read as
    [None]. *)
Example validate_prices_zero_unit_price :
  SalesValidator.field SaleFixtures.sale_free_item "unit_price" = PNone /\
  SalesValidator.validate_prices SaleFixtures.sale_free_item = false.
Proof. split; vm_compute; reflexivity. Qed.

(** C10.  Every sale predicate reads its fields through [field], that is
    [sale.get(name) or sale.get("_" + name)]; so when a record holds a falsy
    value under a public name, every predicate answers as on the record
    without that name.  In particular a record with [quantity = 0] and no
    [_quantity] makes [validate_total_price] answer [False] whatever its other
    fields are, and one with [unit_price = 0.0] and no [_unit_price] makes
    [validate_prices] answer [False]. *)
Theorem falsy_public_field_is_read_as_missing {U : Unicode} (now : Z)
    (s : SalesValidator.sale) :
  (forall name v, s !! name = Some v -> truthy v = false ->
     SalesValidator.public_name name ->
     (forall f, SalesValidator.field s f = SalesValidator.field (delete name s) f) /\
     SalesValidator.is_pending s = SalesValidator.is_pending (delete name s) /\
     SalesValidator.is_completed s = SalesValidator.is_completed (delete name s) /\
     SalesValidator.is_cancelled s = SalesValidator.is_cancelled (delete name s) /\
     (forall ref, SalesValidator.is_future_date now s ref
                  = SalesValidator.is_future_date now (delete name s) ref) /\
     (forall years ref, SalesValidator.is_older_than_years now s years ref
                  = SalesValidator.is_older_than_years now (delete name s) years ref) /\
     SalesValidator.validate_prices s = SalesValidator.validate_prices (delete name s) /\
     SalesValidator.validate_total_price s
       = SalesValidator.validate_total_price (delete name s)) /\
  (s !! "quantity" = Some (PInt 0) -> s !! "_quantity" = None ->
     SalesValidator.validate_total_price s = false) /\
  (s !! "unit_price" = Some (PFloat 0) -> s !! "_unit_price" = None ->
     SalesValidator.validate_prices s = false).
Proof.
  split; [|split].
  - intros name v Hv Hf Hp.
    assert (Hfield : forall f,
      SalesValidator.field (delete name s) f = SalesValidator.field s f)
      by (intros f; by apply (SalesValidatorFacts.field_delete_falsy s name v)).
    unfold SalesValidator.is_pending, SalesValidator.is_completed,
      SalesValidator.is_cancelled, SalesValidator.is_future_date,
      SalesValidator.is_older_than_years, SalesValidator.validate_prices,
      SalesValidator.validate_total_price.
    rewrite !Hfield. repeat split; reflexivity || (intros; by rewrite ?Hfield).
  - intros Hq Hu. unfold SalesValidator.validate_total_price.
    assert (E : SalesValidator.field s "quantity" = PNone).
    { unfold SalesValidator.field, SalesValidator.get. by rewrite Hq, Hu. }
    by rewrite E.
  - intros Hq Hu. unfold SalesValidator.validate_prices.
    assert (E : SalesValidator.field s "unit_price" = PNone).
    { unfold SalesValidator.field, SalesValidator.get. by rewrite Hq, Hu. }
    by rewrite E.
Qed.

(** C10 on the two records above. *)
Lemma falsy_public_field_is_read_as_missing_witness :
  SalesValidator.validate_total_price SaleFixtures.sale_nothing_sold = false /\
  SalesValidator.validate_prices SaleFixtures.sale_free_item = false.
Proof.
  split.
  - apply (proj1 (proj2 (falsy_public_field_is_read_as_missing
             (U := ascii_tables) 0%Z SaleFixtures.sale_nothing_sold)));
      vm_compute; reflexivity.
  - apply (proj2 (proj2 (falsy_public_field_is_read_as_missing
             (U := ascii_tables) 0%Z SaleFixtures.sale_free_item)));
      vm_compute; reflexivity.
Defined.

(** C5.  When the sales table lacks [sale_date] or [seller_employee_id], or
    the employee table lacks [employee_id] or [hire_date], [clean_data] does
    not raise: it returns the sales table it was given, and all it leaves
    behind is one logged warning that lists missing columns. *)
Theorem clean_data_skips_when_columns_missing {cell : Type} `{EqDecision cell}
    {keys : MergeKeys cell} (NA : cell) (parse_datetime : list cell -> cell -> option Z)
    (sales_df employees_df : DataFrame (cell := cell)) :
  has_column sales_df "sale_date" = false \/
  has_column sales_df "seller_employee_id" = false \/
  has_column employees_df "employee_id" = false \/
  has_column employees_df "hire_date" = false ->
  exists message missing,
    clean_data NA parse_datetime sales_df employees_df
      = Some (sales_df, [Warning message missing]) /\
    missing <> [].
Proof.
  intros Hmiss. unfold clean_data.
  assert (Hsales :
    (has_column sales_df "sale_date" = false \/
     has_column sales_df "seller_employee_id" = false) ->
    exists c rest, missing_columns sales_df required_sales_cols = c :: rest).
  { intros [Hc | Hc].
    - apply (FrameFacts.missing_columns_cons sales_df required_sales_cols "sale_date");
        [simpl; tauto | done].
    - apply (FrameFacts.missing_columns_cons sales_df required_sales_cols
               "seller_employee_id"); [simpl; tauto | done]. }
  assert (Hemps :
    (has_column employees_df "employee_id" = false \/
     has_column employees_df "hire_date" = false) ->
    exists c rest, missing_columns employees_df required_employee_cols = c :: rest).
  { intros [Hc | Hc].
    - apply (FrameFacts.missing_columns_cons employees_df required_employee_cols
               "employee_id"); [simpl; tauto | done].
    - apply (FrameFacts.missing_columns_cons employees_df required_employee_cols
               "hire_date"); [simpl; tauto | done]. }
  destruct (missing_columns sales_df required_sales_cols) as [|c1 r1] eqn:Hms.
  - destruct Hemps as (c2 & r2 & ->).
    + destruct Hmiss as [Hc | [Hc | Hc]]; [| |done];
        (destruct Hsales as (? & ? & ?); [tauto | done]).
    + by eexists _, _.
  - by eexists _, _.
Qed.

(** C5 on a sales table that has no [sale_date] column. *)
Lemma clean_data_skips_when_columns_missing_witness :
  exists message missing,
    TableFixtures.clean TableFixtures.sales_without_date TableFixtures.two_employees
      = Some (TableFixtures.sales_without_date, [Warning message missing]) /\
    missing <> [].
Proof.
  apply (clean_data_skips_when_columns_missing TableFixtures.SNaN
           TableFixtures.parse_epoch TableFixtures.sales_without_date
           TableFixtures.two_employees).
  left. vm_compute. reflexivity.
Defined.




(** C9, as the code has it.  The loop addresses the sales through the index
    of the join, which is always the default one.  When every seller joins at
    most one employee row and the sales table itself carries the default
    index [0 .. n-1], the join has one row per sale, in the order of the
    sales, and the same index as the sales table; every write of the loop
    then lands exactly on the sale being examined: the label it is given is
    the label of that sale and of no other row, so that the write changes the
    seller of that sale and nothing else, and the table [clean_data] returns
    holds for every sale the seller the turn of the loop on its row of the join
    leaves.  (Tables on which [clean_data] reaches the loop: the four columns
    are there, [merge] accepts to compare the two identifier columns, and a
    [hire_date] column of the sales table, if there is one, is of a datetime
    dtype.) *)
Theorem clean_data_on_aligned_index {cell : Type} `{EqDecision cell}
    {keys : MergeKeys cell}
    (NA : cell) (parse_datetime : list cell -> cell -> option Z)
    (sales_df employees_df : DataFrame (cell := cell))
    (sellers ids : list cell) (sd hd : column) :
  wf sales_df ->
  index sales_df = range_index (length (index sales_df)) ->
  columns sales_df !! "seller_employee_id" = Some (Object sellers) ->
  columns sales_df !! "sale_date" = Some sd ->
  (forall l, columns sales_df !! "hire_date" <> Some (Object l)) ->
  columns employees_df !! "employee_id" = Some (Object ids) ->
  columns employees_df !! "hire_date" = Some hd ->
  merge_accepts sellers ids = true ->
  Forall (fun s => (length (matching (zip ids (coerce_column parse_datetime hd)) s) <= 1)%nat)
         sellers ->
  exists sales1 emps1 merged,
    ensure_datetime parse_datetime sales_df "sale_date" = Some sales1 /\
    ensure_datetime parse_datetime employees_df "hire_date" = Some emps1 /\
    merge sales1 emps1 = Some merged /\
    range_index (length merged) = index sales_df /\
    map m_source merged = seq 0 (length (index sales_df)) /\
    (forall idx r, In idx (invalid_sales_idx merged) -> merged !! Z.to_nat idx = Some r ->
       index sales_df !! m_source r = Some idx /\
       forall df l v,
         index df = index sales_df ->
         columns df !! "seller_employee_id" = Some (Object l) ->
         length l = length (index sales_df) ->
         at_set NA df idx "seller_employee_id" v
         = Some {| index := index df;
                   columns := <["seller_employee_id" := Object (<[m_source r := v]> l)]>
                                (columns df) |}) /\
    clean_data NA parse_datetime sales_df employees_df =
      Some ({| index := index sales_df;
               columns :=
                 <["seller_employee_id" :=
                     Object (zip_with (written (zip ids (coerce_column parse_datetime hd)))
                               merged sellers)]>
                   (<["sale_date" := Datetime (coerce_column parse_datetime sd)]>
                      (columns sales_df)) |}, []).
Proof.
  intros Hwf Hidx Hsc Hsd Hown Hec Hhd Hacc Hone.
  set (dates := coerce_column parse_datetime sd).
  set (rows := zip ids (coerce_column parse_datetime hd)).
  set (merged := merge_from rows (own_hire sales_df) 0 sellers dates).
  assert (Hls : length sellers = length (index sales_df)) by (by apply Hwf in Hsc).
  assert (Hld : length dates = length (index sales_df)).
  { unfold dates. rewrite FrameFacts.coerce_column_length. by apply Hwf in Hsd. }
  assert (Hsrc : map m_source merged = seq 0 (length (index sales_df))).
  { unfold merged. rewrite FrameFacts.merge_from_sources by (done || lia). by rewrite Hls. }
  assert (Hlm : length merged = length (index sales_df)).
  { rewrite <- (length_map m_source), Hsrc. apply length_seq. }
  exists {| index := index sales_df;
            columns := <["sale_date" := Datetime dates]> (columns sales_df) |},
         {| index := index employees_df;
            columns := <["hire_date" := Datetime (coerce_column parse_datetime hd)]>
                         (columns employees_df) |},
         merged.
  split; [by apply FrameFacts.ensure_datetime_spec|].
  split; [by apply FrameFacts.ensure_datetime_spec|].
  split; [by apply FrameFacts.merge_coerced|].
  split; [by rewrite Hlm|].
  split; [exact Hsrc|].
  split.
  - intros idx r Hin Hr.
    apply FrameFacts.invalid_from_range in Hin as (j & -> & Hj). simpl in *.
    rewrite Nat2Z.id in Hr.
    assert (Hsj : m_source r = j).
    { assert (Hm : map m_source merged !! j = Some (m_source r))
        by (by rewrite list_lookup_fmap, Hr).
      rewrite Hsrc in Hm. apply lookup_seq in Hm as [Hm _]. simpl in Hm. done. }
    rewrite Hsj. split.
    + rewrite Hidx. unfold range_index. rewrite list_lookup_fmap.
      rewrite (proj2 (lookup_seq 0 (length (index sales_df)) j j)) by (split; [done | lia]).
      done.
    + intros df l v Hdf Hl Hlen.
      apply FrameFacts.at_set_range; rewrite ?Hdf; try done; lia.
  - rewrite (FrameFacts.clean_data_steps NA parse_datetime sales_df employees_df
               sellers ids sd hd) by done.
    fold dates rows merged.
    rewrite <- (insert_id (<["sale_date" := Datetime dates]> (columns sales_df))
                  "seller_employee_id" (Object sellers)) at 1
      by (by rewrite lookup_insert_ne).
    rewrite Hidx at 1.
    pose proof (FrameFacts.reassign_all_on_range NA rows
                  (<["sale_date" := Datetime dates]> (columns sales_df))
                  (length (index sales_df)) merged merged sellers [] 0%nat) as Hloop.
    simpl in Hloop. unfold invalid_sales_idx. rewrite Hloop; try done; try lia.
    simpl. by rewrite <- Hidx.
Qed.

(** C9 on two sales and two employees: the join has the rows of S1 and S2
    under the labels 0 and 1 of the sales table; S1, sold by E2 before E2 was
    hired, goes to E1; S2, whose seller E9 is unknown, keeps E9. *)
Lemma clean_data_on_aligned_index_witness :
  exists sales1 emps1 merged,
    ensure_datetime TableFixtures.parse_epoch TableFixtures.two_sales "sale_date"
      = Some sales1 /\
    ensure_datetime TableFixtures.parse_epoch TableFixtures.two_employees "hire_date"
      = Some emps1 /\
    merge sales1 emps1 = Some merged /\
    range_index (length merged) = index TableFixtures.two_sales /\
    map m_source merged = seq 0 (length (index TableFixtures.two_sales)) /\
    invalid_sales_idx merged = [0%Z] /\
    TableFixtures.clean TableFixtures.two_sales TableFixtures.two_employees =
      Some ({| index := [0; 1]%Z;
               columns :=
                 {[ "sale_id" := Object [TableFixtures.SStr "S1"; TableFixtures.SStr "S2"];
                    "seller_employee_id" :=
                      Object [TableFixtures.SStr "E1"; TableFixtures.SStr "E9"];
                    "sale_date" := Datetime [Some TableFixtures.d_2022_06_01;
                                             Some TableFixtures.d_2022_06_01] ]} |}, []).
Proof.
  assert (Hwf : wf TableFixtures.two_sales).
  { apply (bool_decide_unpack
             (map_Forall (fun _ c => column_length c = length (index TableFixtures.two_sales))
                         (columns TableFixtures.two_sales))).
    vm_compute. exact I. }
  assert (Hown : forall l,
    columns TableFixtures.two_sales !! "hire_date" <> Some (Object l))
    by (intros l; vm_compute; discriminate).
  assert (Hacc :
    merge_accepts [TableFixtures.SStr "E2"; TableFixtures.SStr "E9"]
                  [TableFixtures.SStr "E1"; TableFixtures.SStr "E2"] = true)
    by (vm_compute; reflexivity).
  assert (Hone :
    Forall (fun s => (length (matching
              (zip [TableFixtures.SStr "E1"; TableFixtures.SStr "E2"]
                 (coerce_column TableFixtures.parse_epoch
                    (Datetime [Some TableFixtures.d_2021_01_01;
                               Some TableFixtures.d_2023_01_01]))) s) <= 1)%nat)
           [TableFixtures.SStr "E2"; TableFixtures.SStr "E9"])
    by (repeat constructor).
  destruct (clean_data_on_aligned_index TableFixtures.SNaN TableFixtures.parse_epoch
              TableFixtures.two_sales TableFixtures.two_employees
              [TableFixtures.SStr "E2"; TableFixtures.SStr "E9"]
              [TableFixtures.SStr "E1"; TableFixtures.SStr "E2"]
              (Datetime [Some TableFixtures.d_2022_06_01; Some TableFixtures.d_2022_06_01])
              (Datetime [Some TableFixtures.d_2021_01_01; Some TableFixtures.d_2023_01_01])
              Hwf eq_refl eq_refl eq_refl Hown eq_refl eq_refl Hacc Hone)
    as (sales1 & emps1 & merged & H1 & H2 & H3 & H4 & H5 & _ & H7).
  exists sales1, emps1, merged. repeat (split; [assumption|]).
  vm_compute in H1, H2. injection H1 as <-. injection H2 as <-.
  vm_compute in H3. injection H3 as <-.
  split; [vm_compute; reflexivity|]. rewrite H7. vm_compute. reflexivity.
Defined.

(** C9, as stated, fails: the two employees have distinct identifiers, but
    the sales table carries the labels 1 and 0.  The join is labelled 0 and 1;
    the write computed for S1 (first row of the join, label 0) lands on the row
    of the sales table labelled 0, which is S2: S1 keeps E2, and S2, whose
    seller joins no employee, is given to E1. *)
Lemma clean_data_relabelled_sales_misaligned :
  Forall (fun s => (length (matching
                      [(TableFixtures.SStr "E1", Some TableFixtures.d_2021_01_01);
                       (TableFixtures.SStr "E2", Some TableFixtures.d_2023_01_01)] s) <= 1)%nat)
         [TableFixtures.SStr "E2"; TableFixtures.SStr "E9"] /\
  exists merged sales_df',
    merge TableFixtures.two_sales_relabelled TableFixtures.two_employees = Some merged /\
    range_index (length merged) = [0; 1]%Z /\
    index TableFixtures.two_sales_relabelled = [1; 0]%Z /\
    invalid_sales_idx merged = [0%Z] /\
    TableFixtures.clean TableFixtures.two_sales_relabelled TableFixtures.two_employees
      = Some (sales_df', []) /\
    columns TableFixtures.two_sales_relabelled !! "seller_employee_id"
      = Some (Object [TableFixtures.SStr "E2"; TableFixtures.SStr "E9"]) /\
    columns sales_df' !! "seller_employee_id"
      = Some (Object [TableFixtures.SStr "E2"; TableFixtures.SStr "E1"]).
Proof.
  split; [repeat constructor|].
  eexists _, _. repeat split; vm_compute; reflexivity.
Qed.

(** C1, where the code departs from it.  The employee table lists E1 twice.
    Sale S2 (third row of the join, label 2) is flagged: E2 was hired after it.
    E1 qualifies and is the first to qualify, yet S2 keeps E2: the write goes
    to the row of the sales table labelled 2, which is S3. *)
Example clean_data_duplicate_employee_misses_flagged_sale :
  flagged [(TableFixtures.SStr "E1", Some TableFixtures.d_2021_01_01);
           (TableFixtures.SStr "E1", Some TableFixtures.d_2021_01_01);
           (TableFixtures.SStr "E2", Some TableFixtures.d_2023_01_01)]
          (TableFixtures.SStr "E2") (Some TableFixtures.d_2022_06_01) = true /\
  valid_emps [(TableFixtures.SStr "E1", Some TableFixtures.d_2021_01_01);
              (TableFixtures.SStr "E1", Some TableFixtures.d_2021_01_01);
              (TableFixtures.SStr "E2", Some TableFixtures.d_2023_01_01)]
             (Some TableFixtures.d_2022_06_01)
    = [TableFixtures.SStr "E1"; TableFixtures.SStr "E1"] /\
  exists merged sales_df',
    merge TableFixtures.three_sales TableFixtures.employees_e1_twice = Some merged /\
    map m_source merged = [0; 0; 1; 2; 2]%nat /\
    invalid_sales_idx merged = [2%Z] /\
    TableFixtures.clean TableFixtures.three_sales TableFixtures.employees_e1_twice
      = Some (sales_df', []) /\
    columns sales_df' !! "seller_employee_id"
      = Some (Object [TableFixtures.SStr "E1"; TableFixtures.SStr "E2";
                      TableFixtures.SStr "E1"]).
Proof.
  split; [reflexivity|]. split; [reflexivity|].
  eexists _, _. repeat split; vm_compute; reflexivity.
Qed.

(** C2, where the code departs from it.  The employee table lists E2 twice.
    Sale S2 names the seller E9, who joins no employee row, so no row of the
    join built from S2 is flagged; but S1 gives two flagged rows, labelled 0
    and 1, and the write for the second lands on S2, which is given to E1. *)
Example clean_data_duplicate_employee_rewrites_unmatched_sale :
  matching [(TableFixtures.SStr "E1", Some TableFixtures.d_2021_01_01);
            (TableFixtures.SStr "E2", Some TableFixtures.d_2023_01_01);
            (TableFixtures.SStr "E2", Some TableFixtures.d_2023_01_01)]
           (TableFixtures.SStr "E9") = [] /\
  exists merged sales_df',
    merge TableFixtures.two_sales TableFixtures.employees_e2_twice = Some merged /\
    map m_source merged = [0; 0; 1]%nat /\
    map invalid_mask merged = [true; true; false] /\
    invalid_sales_idx merged = [0; 1]%Z /\
    TableFixtures.clean TableFixtures.two_sales TableFixtures.employees_e2_twice
      = Some (sales_df', []) /\
    columns TableFixtures.two_sales !! "seller_employee_id"
      = Some (Object [TableFixtures.SStr "E2"; TableFixtures.SStr "E9"]) /\
    columns sales_df' !! "seller_employee_id"
      = Some (Object [TableFixtures.SStr "E1"; TableFixtures.SStr "E1"]).
Proof.
  split; [reflexivity|].
  eexists _, _. repeat split; vm_compute; reflexivity.
Qed.

(** The test of the repository, [test_clean_data_reassign]: both sellers are
    kept. *)
Example clean_data_test_reassign :
  exists sales_df',
    TableFixtures.clean TableFixtures.test_sales TableFixtures.test_employees
      = Some (sales_df', []) /\
    columns sales_df' !! "seller_employee_id"
      = Some (Object [TableFixtures.SInt 1; TableFixtures.SInt 2]).
Proof. eexists. split; vm_compute; reflexivity. Qed.

(** X1 (the flagging half of C2, on every input).  In the join of any sales
    with any employees, the sale at position [p] gives a flagged row exactly
    when the employee table has a row with the sale's seller identifier and a
    hire date strictly after the sale date.  A sale whose seller joins no
    employee, or whose date is on or after every hire date it joins, gives no
    flagged row. *)
Theorem join_flags_sales_before_hire {cell : Type} `{EqDecision cell}
    (emps : list (cell * option Z)) (sellers : list cell) (dates : list (option Z))
    (p : nat) (s : cell) (d : option Z) :
  sellers !! p = Some s -> dates !! p = Some d ->
  (exists r, In r (merge_from emps None 0 sellers dates) /\
             m_source r = p /\ invalid_mask r = true)
  <-> (exists e, In e emps /\ e.1 = s /\ dt_lt d e.2 = true).
Proof.
  intros Hs Hd. rewrite <- FrameFacts.flagged_spec, <- (FrameFacts.merge_sale_flagged emps p s d).
  split.
  - intros (r & Hin & Hsrc & Hr). exists r. split; [|done].
    apply FrameFacts.merge_from_In in Hin as (k & s' & d' & Hs' & Hd' & Hin).
    pose proof (FrameFacts.merge_sale_source _ _ _ _ _ _ Hin) as [Hk _].
    simpl in Hk. rewrite Hsrc in Hk. subst k. by simplify_eq.
  - intros (r & Hin & Hr). exists r. split; [|split; [|done]].
    + apply FrameFacts.merge_from_In. by exists p, s, d.
    + by apply FrameFacts.merge_sale_source in Hin as [? _].
Qed.

(** X1 on the two sales and two employees above: S1, sold by E2 before E2 was
    hired, gives a flagged row. *)
Lemma join_flags_sales_before_hire_witness :
  (exists r, In r (merge_from
                     [(TableFixtures.SStr "E1", Some TableFixtures.d_2021_01_01);
                      (TableFixtures.SStr "E2", Some TableFixtures.d_2023_01_01)]
                     None 0
                     [TableFixtures.SStr "E2"; TableFixtures.SStr "E9"]
                     [Some TableFixtures.d_2022_06_01; Some TableFixtures.d_2022_06_01]) /\
             m_source r = 0%nat /\ invalid_mask r = true)
  <-> (exists e, In e [(TableFixtures.SStr "E1", Some TableFixtures.d_2021_01_01);
                       (TableFixtures.SStr "E2", Some TableFixtures.d_2023_01_01)] /\
                 e.1 = TableFixtures.SStr "E2" /\
                 dt_lt (Some TableFixtures.d_2022_06_01) e.2 = true).
Proof.
  apply (join_flags_sales_before_hire
           [(TableFixtures.SStr "E1", Some TableFixtures.d_2021_01_01);
            (TableFixtures.SStr "E2", Some TableFixtures.d_2023_01_01)]
           [TableFixtures.SStr "E2"; TableFixtures.SStr "E9"]
           [Some TableFixtures.d_2022_06_01; Some TableFixtures.d_2022_06_01]
           0 (TableFixtures.SStr "E2") (Some TableFixtures.d_2022_06_01));
    reflexivity.
Defined.

(** * Further properties *)

(** ** More on the phone cleaner *)
Module PhoneCleanerMoreFacts.
Import PyStr PhoneCleaner PyStrFacts PhoneCleanerFacts.

Lemma lstrip_zero_idem (s : str) : lstrip_zero (lstrip_zero s) = lstrip_zero s.
Proof.
  induction s as [|c s IH]; simpl; [done|].
  destruct (c =? 48) eqn:E; [done|]. simpl. by rewrite E.
Qed.

Lemma lstrip_zero_head (s : str) c t : lstrip_zero s = c :: t -> c <> 48.
Proof.
  induction s as [|a s IH]; simpl; [done|].
  destruct (a =? 48) eqn:E; [done|]. intros [= <- _]. by apply N.eqb_neq.
Qed.

Lemma lstrip_zero_zeros (s : str) : Forall (fun c => c = 48) s -> lstrip_zero s = [].
Proof. induction 1 as [|c s -> _ IH]; simpl; done. Qed.

Lemma lstrip_zero_length (s : str) : (length (lstrip_zero s) <= length s)%nat.
Proof.
  induction s as [|c s IH]; simpl; [done|]. destruct (c =? 48); simpl; lia.
Qed.

Lemma filter_all (p : char -> bool) (s : str) :
  forallb p s = true -> List.filter p s = s.
Proof.
  induction s as [|c s IH]; simpl; [done|].
  intros H. apply andb_true_iff in H as [-> H]. f_equal. by apply IH.
Qed.

Section WithTables.
Context {U : Unicode}.

Lemma extract_digits_nil : extract_digits [] = [].
Proof. reflexivity. Qed.

(** On a string of digits [extract_digits] answers the string or nothing, and
    a second pass changes nothing more. *)
Lemma extract_digits_twice (d : str) :
  forallb is_decimal d = true -> extract_digits (extract_digits d) = extract_digits d.
Proof.
  intros Hd.
  assert (Hcase : extract_digits d = [] \/ extract_digits d = d).
  { unfold extract_digits.
    destruct (is_empty d || str_eqb (lower d) nan); [by left | right].
    by apply filter_all. }
  destruct Hcase as [E | E]; rewrite E; [reflexivity | exact E].
Qed.

Lemma extract_digits_zeros (s : str) :
  Forall (fun c => c = 48) s -> Forall (fun c => c = 48) (extract_digits s).
Proof.
  intros Hs. unfold extract_digits.
  destruct (is_empty s || str_eqb (lower s) nan); [constructor|].
  apply List.Forall_forall. intros c Hc. apply filter_In in Hc as [Hc _].
  by apply (proj1 (List.Forall_forall _ _) Hs).
Qed.

(** What [phone_clean_and_validate] computes: the digits without their
    leading zeros when they pass [phone_is_valid], the sentinel otherwise. *)
Lemma phone_clean_and_validate_alt (phone : str) :
  phone_clean_and_validate phone =
    if phone_is_valid (clean_zeroes (extract_digits phone))
    then clean_zeroes (extract_digits phone) else sentinel.
Proof.
  unfold phone_clean_and_validate.
  set (cleaned := clean_zeroes (extract_digits phone)).
  destruct (is_empty phone || str_eqb (lower phone) nan) eqn:E; simpl.
  - assert (Hc : cleaned = []).
    { assert (He : extract_digits phone = []) by (unfold extract_digits; by rewrite E).
      unfold cleaned. by rewrite He. }
    by rewrite Hc.
  - destruct (phone_is_valid cleaned) eqn:Hv; simpl; [|done].
    destruct cleaned; [discriminate Hv | done].
Qed.

Lemma phone_is_valid_length (s : str) :
  phone_is_valid s = true -> (10 <= length (extract_digits s))%nat.
Proof.
  unfold phone_is_valid.
  destruct (length (extract_digits s) =? 10)%nat eqn:E10.
  - apply Nat.eqb_eq in E10. lia.
  - destruct (length (extract_digits s) =? 11)%nat eqn:E11; [|done].
    apply Nat.eqb_eq in E11. lia.
Qed.

(** A valid result of the cleaning is a fixed point of each step. *)
Lemma valid_cleaned_fixed (x : str) :
  phone_is_valid (clean_zeroes x) = true ->
  extract_digits (clean_zeroes x) = clean_zeroes x /\
  clean_zeroes (clean_zeroes x) = clean_zeroes x.
Proof.
  intros Hv. pose proof (phone_is_valid_length _ Hv) as Hlen.
  assert (He : extract_digits (clean_zeroes x) = clean_zeroes x)
    by (apply extract_digits_fixed; [apply clean_zeroes_decimal | done]).
  split; [done|]. unfold clean_zeroes at 1. rewrite He.
  unfold clean_zeroes. apply lstrip_zero_idem.
Qed.

End WithTables.

End PhoneCleanerMoreFacts.

(** * Further properties of the code *)

(** X2.  The outcome of [phone_clean_and_validate] depends on the digits of
    its input only: cleaning a string and cleaning what [extract_digits] keeps
    of it give the same result, so punctuation, spaces, letters and a sign
    never matter. *)
Theorem phone_clean_and_validate_reads_digits_only {U : Unicode} (phone : str) :
  PhoneCleaner.phone_clean_and_validate (PhoneCleaner.extract_digits phone)
  = PhoneCleaner.phone_clean_and_validate phone.
Proof.
  rewrite !PhoneCleanerMoreFacts.phone_clean_and_validate_alt.
  assert (E : PhoneCleaner.clean_zeroes
                (PhoneCleaner.extract_digits (PhoneCleaner.extract_digits phone))
              = PhoneCleaner.clean_zeroes (PhoneCleaner.extract_digits phone)).
  { unfold PhoneCleaner.clean_zeroes. f_equal.
    apply PhoneCleanerMoreFacts.extract_digits_twice, PhoneCleanerFacts.extract_digits_decimal. }
  by rewrite E.
Qed.

(** X3.  [phone_clean_and_validate] is idempotent: cleaning a cleaned number
    (the sentinel included) returns it unchanged. *)
Theorem phone_clean_and_validate_idempotent {U : Unicode} (phone : str) :
  PhoneCleaner.phone_clean_and_validate (PhoneCleaner.phone_clean_and_validate phone)
  = PhoneCleaner.phone_clean_and_validate phone.
Proof.
  rewrite (PhoneCleanerMoreFacts.phone_clean_and_validate_alt phone).
  set (x := PhoneCleaner.extract_digits phone).
  destruct (PhoneCleaner.phone_is_valid (PhoneCleaner.clean_zeroes x)) eqn:Hv.
  - destruct (PhoneCleanerMoreFacts.valid_cleaned_fixed x Hv) as [He Hc].
    rewrite PhoneCleanerMoreFacts.phone_clean_and_validate_alt. by rewrite He, Hc, Hv.
  - rewrite PhoneCleanerMoreFacts.phone_clean_and_validate_alt.
    assert (Hz : PhoneCleaner.clean_zeroes (PhoneCleaner.extract_digits PhoneCleaner.sentinel) = []).
    { unfold PhoneCleaner.clean_zeroes. apply PhoneCleanerMoreFacts.lstrip_zero_zeros.
      do 2 apply PhoneCleanerMoreFacts.extract_digits_zeros.
      repeat constructor. }
    by rewrite Hz.
Qed.

(** X4.  Whatever [phone_clean_and_validate] returns besides the sentinel is
    a number [phone_is_valid] accepts, made of digits only (so that
    [extract_digits] leaves it alone), and it does not begin with "0". *)
Theorem phone_clean_and_validate_result_is_valid {U : Unicode} (phone : str) :
  PhoneCleaner.phone_clean_and_validate phone = PhoneCleaner.sentinel \/
  (PhoneCleaner.phone_is_valid (PhoneCleaner.phone_clean_and_validate phone) = true /\
   PhoneCleaner.extract_digits (PhoneCleaner.phone_clean_and_validate phone)
     = PhoneCleaner.phone_clean_and_validate phone /\
   forall t, PhoneCleaner.phone_clean_and_validate phone <> 48 :: t).
Proof.
  rewrite PhoneCleanerMoreFacts.phone_clean_and_validate_alt.
  set (x := PhoneCleaner.extract_digits phone).
  destruct (PhoneCleaner.phone_is_valid (PhoneCleaner.clean_zeroes x)) eqn:Hv; [right | by left].
  destruct (PhoneCleanerMoreFacts.valid_cleaned_fixed x Hv) as [He _].
  repeat split; try done.
  intros t Ht. unfold PhoneCleaner.clean_zeroes in Ht.
  by apply PhoneCleanerMoreFacts.lstrip_zero_head in Ht.
Qed.

(** ** More on the email cleaner *)
Module EmailCleanerMoreFacts.
Import PyStr Regex EmailCleaner EmailDomain PyStrFacts RegexFacts EmailCleanerFacts.

Lemma split_on_nonempty sep (s : str) : split_on sep s <> [].
Proof.
  induction s as [|c s IH]; simpl; [done|].
  destruct (c =? sep); [done|]. by destruct (split_on sep s).
Qed.

Lemma split_on_found sep (s : str) :
  In sep s -> is_Some (split_on sep s !! 1%nat).
Proof.
  induction s as [|c s IH]; simpl; [done|].
  intros Hin. destruct (c =? sep) eqn:E.
  - pose proof (split_on_nonempty sep s). simpl.
    destruct (split_on sep s); [done | eauto].
  - destruct Hin as [->|Hin]; [by rewrite N.eqb_refl in E|].
    specialize (IH Hin). destruct (split_on sep s) as [|p [|q r]]; simpl in *;
      try done; by destruct IH.
Qed.

Section WithTables.
Context {U : Unicode}.

Lemma lstrip_idem (s : str) : lstrip (lstrip s) = lstrip s.
Proof.
  destruct (lstrip s) as [|c t] eqn:E; [done|].
  apply lstrip_head in E. simpl. by rewrite E.
Qed.

Lemma lstrip_In (s : str) c : In c (lstrip s) -> In c s.
Proof.
  induction s as [|a s IH]; simpl; [done|].
  destruct (is_space a); [intros H; right; by apply IH | done].
Qed.

Lemma strip_In (s : str) c : In c (strip s) -> In c s.
Proof.
  unfold strip, rstrip. intros H. apply in_rev in H. apply lstrip_In in H.
  apply in_rev in H. by apply lstrip_In.
Qed.

(** Trimming on the left a string that ends with a visible code point keeps
    that end. *)
Lemma lstrip_snoc (u : str) c :
  is_space c = false -> exists v, lstrip (u ++ [c]) = v ++ [c].
Proof.
  intros Hc. induction u as [|a u [v IH]]; simpl.
  - rewrite Hc. by exists [].
  - destruct (is_space a); [by exists v|]. by exists (a :: u).
Qed.

Lemma rstrip_idem (s : str) : rstrip (rstrip s) = rstrip s.
Proof. unfold rstrip. by rewrite rev_involutive, lstrip_idem. Qed.

Lemma lstrip_rstrip (l : str) : lstrip l = l -> lstrip (rstrip l) = rstrip l.
Proof.
  intros Hl. destruct l as [|c t]; [done|].
  assert (Hc : is_space c = false) by (by apply (lstrip_head (c :: t) c t)).
  unfold rstrip. simpl rev. destruct (lstrip_snoc (rev t) c Hc) as [v ->].
  rewrite rev_app_distr. simpl. by rewrite Hc.
Qed.

Lemma strip_idem (s : str) : strip (strip s) = strip s.
Proof.
  unfold strip. rewrite (lstrip_rstrip (lstrip s)) by apply lstrip_idem.
  apply rstrip_idem.
Qed.

Lemma strip_nil : strip [] = [].
Proof. reflexivity. Qed.

Lemma lower_nil : lower [] = [].
Proof. reflexivity. Qed.

Context {HU : UnicodeSpec U}.

(** [lower] writes an at sign only for an at sign. *)
Lemma lower_from_at (s : str) : forall pre, In 64 (lower_from pre s) -> In 64 s.
Proof.
  induction s as [|c s IH]; intros pre Hin; simpl in *; [done|].
  apply in_app_or in Hin as [Hin | Hin]; [left | right; by apply (IH _ Hin)].
  destruct (N.lt_ge_cases c 128) as [Hc|Hc].
  - rewrite (lower_ascii pre c s Hc) in Hin. destruct Hin as [Hin|[]].
    unfold ascii_lower in Hin. destruct (is_upper_az c) eqn:Eu; [|done].
    boolify. lia.
  - assert (Hl : is_lower_az 64 = true) by (apply (lower_other pre c s 64 Hc Hin); lia).
    discriminate.
Qed.

(** A valid email holds an at sign. *)
Lemma valid_has_at (x : str) : email_is_valid x = true -> In 64 x.
Proof.
  unfold email_is_valid. destruct (is_empty x); [done|]. intros Hm.
  apply re_match_anchored_lang in Hm as [L | (t & Et & _)];
    [|by apply lower_strip_not_lf in Et].
  apply email_lang_shape in L as (loc & dom & tld & E & _).
  apply strip_In, (lower_from_at _ []). change (In 64 (lower (strip x))).
  rewrite E. apply in_or_app. right. by left.
Qed.

End WithTables.

End EmailCleanerMoreFacts.

(** X5.  [email_is_valid] and [clean] agree: an email is valid exactly when
    [clean] returns something other than the sentinel "nan". *)
Theorem email_is_valid_iff_clean_keeps {U : Unicode} (x : str) :
  EmailCleaner.email_is_valid x = true <-> EmailCleaner.clean x <> EmailCleaner.nan.
Proof.
  unfold EmailCleaner.email_is_valid, EmailCleaner.clean.
  destruct (is_empty x); [done|].
  set (c := lower (strip x)).
  destruct (Regex.re_match_anchored EmailCleaner.EMAIL_PATTERN c) eqn:E;
    cbn [negb]; [|done].
  split; [|done]. intros _ Hn. rewrite Hn in E. discriminate E.
Qed.

(** X6.  Padding does not matter to the email cleaner: [clean] and
    [email_is_valid] give the same answer on a string and on the string
    without the whitespace around it. *)
Theorem clean_ignores_surrounding_whitespace {U : Unicode} (x : str) :
  EmailCleaner.clean (strip x) = EmailCleaner.clean x /\
  EmailCleaner.email_is_valid (strip x) = EmailCleaner.email_is_valid x.
Proof.
  unfold EmailCleaner.clean, EmailCleaner.email_is_valid.
  rewrite EmailCleanerMoreFacts.strip_idem.
  destruct x as [|c t]; [done|]. simpl is_empty at 2 4. cbv iota.
  destruct (strip (c :: t)) as [|c' t'] eqn:E; [|done].
  simpl. done.
Qed.

(** X7.  [get_domain] answers [None] exactly for the emails [email_is_valid]
    rejects: a valid email always holds an at sign, so the piece after it
    exists and no [IndexError] is met. *)
Theorem get_domain_none_iff_invalid {U : Unicode} (HU : UnicodeSpec U) (x : str) :
  EmailDomain.get_domain x = None <-> EmailCleaner.email_is_valid x = false.
Proof.
  unfold EmailDomain.get_domain.
  destruct (EmailCleaner.email_is_valid x) eqn:Hv; simpl; [|done].
  destruct (EmailCleanerMoreFacts.split_on_found 64 x
              (EmailCleanerMoreFacts.valid_has_at x Hv)) as [d ->].
  done.
Qed.

(** X7 on the input of the repository's test, [get_domain("user@domain.com")]. *)
Lemma get_domain_none_iff_invalid_witness :
  EmailDomain.get_domain (U := ascii_tables) (str_of "user@domain.com") = None
  <-> EmailCleaner.email_is_valid (U := ascii_tables) (str_of "user@domain.com") = false.
Proof.
  exact (get_domain_none_iff_invalid (U := ascii_tables) PyStrFacts.ascii_tables_spec
           (str_of "user@domain.com")).
Defined.

(** The tests of the repository for [get_domain] and [email_is_valid]. *)
Example get_domain_test_examples :
  EmailDomain.get_domain (U := ascii_tables) (str_of "user@domain.com")
    = Some (str_of "domain.com") /\
  EmailDomain.get_domain (U := ascii_tables) (str_of "invalidemail") = None /\
  EmailCleaner.email_is_valid (U := ascii_tables) (str_of "test@example.com") = true /\
  EmailCleaner.email_is_valid (U := ascii_tables) (str_of "invalidemail") = false.
Proof. repeat split; reflexivity. Qed.

(** ** Leading zeros *)
Module PhoneZeroFacts.
Import PyStr PhoneCleaner PyStrFacts PhoneCleanerFacts PhoneCleanerMoreFacts.

Section WithTables.
Context {U : Unicode}.

Lemma extract_digits_length (s : str) : (length (extract_digits s) <= length s)%nat.
Proof.
  unfold extract_digits. destruct (is_empty s || str_eqb (lower s) nan); simpl; [lia|].
  induction s as [|c s IH]; simpl; [done|]. destruct (is_decimal c); simpl; lia.
Qed.

(** A string too short to hold ten digits is never valid. *)
Lemma phone_is_valid_short (s : str) : (length s < 10)%nat -> phone_is_valid s = false.
Proof.
  intros Hs. destruct (phone_is_valid s) eqn:Hv; [|done].
  apply phone_is_valid_length in Hv. pose proof (extract_digits_length s). lia.
Qed.

Context {HU : UnicodeSpec U}.

(** Ten or more ASCII digits are read as they stand. *)
Lemma extract_digits_ascii_digits (x : str) :
  (forall c, is_digit_09 c = true -> is_decimal c = true) ->
  forallb is_digit_09 x = true -> (4 <= length x)%nat -> extract_digits x = x.
Proof.
  intros Hd Hx Hlen. unfold extract_digits.
  assert (Hlow : lower x = x).
  { apply lower_fixed. apply List.Forall_forall. intros c Hc.
    assert (Hc' : is_digit_09 c = true) by (by apply (proj1 (forallb_forall _ _) Hx)).
    split; [boolify; lia | bool_false]. }
  rewrite Hlow.
  assert (Hn : str_eqb x nan = false).
  { destruct (str_eqb x nan) eqn:E; [|done]. apply str_eqb_eq in E. subst x.
    simpl in Hlen. lia. }
  rewrite Hn. destruct x as [|a x']; [simpl in Hlen; lia|].
  simpl is_empty. cbv iota. simpl orb. cbv iota.
  apply filter_all. apply forallb_forall. intros d Hin.
  apply Hd. by apply (proj1 (forallb_forall _ _) Hx).
Qed.

End WithTables.

End PhoneZeroFacts.

(** X8.  Leading zeros are removed before the length is checked, so
    [phone_is_valid] and [phone_clean_and_validate] disagree on a ten-digit
    number that begins with "0": [phone_is_valid] accepts it, and the cleaner
    replaces it by the sentinel.  (Digits are the ASCII digits here, which the
    tables count as decimal.) *)
Theorem phone_ten_digits_leading_zero {U : Unicode} (HU : UnicodeSpec U) (x t : str) :
  (forall c, is_digit_09 c = true -> is_decimal c = true) ->
  x = 48 :: t -> length x = 10%nat -> forallb is_digit_09 x = true ->
  PhoneCleaner.phone_is_valid x = true /\
  PhoneCleaner.phone_clean_and_validate x = PhoneCleaner.sentinel.
Proof.
  intros Hd Hx Hlen Hdig.
  assert (He : PhoneCleaner.extract_digits x = x)
    by (apply PhoneZeroFacts.extract_digits_ascii_digits; [done | done | lia]).
  split.
  - unfold PhoneCleaner.phone_is_valid. rewrite He, Hlen. reflexivity.
  - rewrite PhoneCleanerMoreFacts.phone_clean_and_validate_alt.
    rewrite PhoneZeroFacts.phone_is_valid_short; [done|].
    unfold PhoneCleaner.clean_zeroes. rewrite !He. subst x. simpl.
    pose proof (PhoneCleanerMoreFacts.lstrip_zero_length t). simpl in Hlen. lia.
Qed.

(** X8 on "0123456789". *)
Lemma phone_ten_digits_leading_zero_witness :
  PhoneCleaner.phone_is_valid (U := ascii_tables) (str_of "0123456789") = true /\
  PhoneCleaner.phone_clean_and_validate (U := ascii_tables) (str_of "0123456789")
    = PhoneCleaner.sentinel.
Proof.
  apply (phone_ten_digits_leading_zero (U := ascii_tables) PyStrFacts.ascii_tables_spec
           (str_of "0123456789") (str_of "123456789")).
  - intros c Hc. exact Hc.
  - reflexivity.
  - reflexivity.
  - reflexivity.
Defined.

(** ** More on the sale predicates *)
Module SalesValidatorMoreFacts.
Import PyStr PyVal SalesValidator SalesInstances PyStrFacts.

Local Open Scope Z_scope.

(** Whole division by a positive number, as a bound. *)
Lemma floor_div_ge (k x b : Z) : 0 < b -> (k <= x / b <-> k * b <= x).
Proof.
  intros Hb. split; intros H.
  - pose proof (Z.mul_div_le x b Hb). nia.
  - apply Z.div_le_lower_bound; lia.
Qed.

Lemma days_years_ge (k us : Z) :
  k <= days_of_us us / 365 <-> k * 365 * 86400000000 <= us.
Proof.
  unfold days_of_us. rewrite floor_div_ge by lia. rewrite floor_div_ge by lia. lia.
Qed.

Section WithTables.
Context {U : Unicode}.

(** A status reads as pending or as completed, never as both. *)
Lemma pending_not_completed (s : sale) :
  is_pending s = true -> is_completed s = false.
Proof.
  unfold is_pending, is_completed. destruct (field s "sale_status"); try done.
  intros Hp. apply str_eqb_eq in Hp. rewrite Hp. reflexivity.
Qed.

Lemma valid_mask_validate_sales now (sales : list sale) :
  Forall (fun r => valid_mask r = false) (validate_sales now sales).
Proof.
  unfold validate_sales. apply List.Forall_forall. intros r Hr.
  apply in_map_iff in Hr as (s & <- & _). unfold valid_mask. simpl.
  destruct (is_pending s) eqn:Hp.
  - rewrite (pending_not_completed s Hp). simpl. by rewrite !orb_true_r.
  - simpl. by rewrite !orb_true_r.
Qed.

End WithTables.

Lemma create_sale_instances_none_valid (df_sales : list sale)
    (validations : list validation_row) :
  Forall (fun r => valid_mask r = false) validations ->
  create_sale_instances df_sales validations = Some [].
Proof.
  intros Hv. unfold create_sale_instances.
  assert (E : List.filter (fun p : sale * validation_row => valid_mask p.2)
                (zip df_sales validations) = []).
  { revert df_sales. induction Hv as [|r rs Hr _ IH]; intros [|s df]; simpl; try done.
    by rewrite Hr, IH. }
  by rewrite E.
Qed.

(** Lowering ASCII text is lowering each of its letters. *)
Lemma lower_from_ascii {U : Unicode} {HU : UnicodeSpec U} (t : str) : forall pre,
  Forall (fun c => (c < 128)%N) t -> lower_from pre t = map ascii_lower t.
Proof.
  induction t as [|c t IH]; intros pre Ht; simpl; [done|].
  inversion Ht as [|? ? Hc Ht']; subst.
  rewrite (lower_ascii pre c t Hc). simpl. f_equal. by apply IH.
Qed.

Lemma lower_letter_not_space (c : char) :
  is_lower_az (ascii_lower c) = true -> ascii_space c = false.
Proof.
  unfold ascii_lower. destruct (is_upper_az c) eqn:Eu; intros Hl; bool_false.
Qed.

(** ASCII text that lowers to letters only has no whitespace to trim. *)
Lemma strip_letters {U : Unicode} {HU : UnicodeSpec U} (t : str) :
  Forall (fun c => (c < 128)%N) t ->
  forallb is_lower_az (lower t) = true -> strip t = t.
Proof.
  intros Ht Hl. apply strip_fixed. unfold lower in Hl.
  rewrite (lower_from_ascii t [] Ht) in Hl.
  induction Ht as [|c t Hc Ht IH]; [constructor|].
  simpl in Hl. apply andb_true_iff in Hl as [Hl1 Hl2].
  constructor; [|by apply IH].
  rewrite space_ascii by done. by apply lower_letter_not_space.
Qed.

End SalesValidatorMoreFacts.

(** X9.  No sale ever passes the validity mask of [create_sale_instances]:
    a row is kept only if none of its cells equals [False], and the columns
    [is_pending] and [is_completed] of [validate_sales] are never both [True].
    So on the table [validate_sales] builds, [create_sale_instances] returns
    the empty list for every list of sales (and never calls [Sale]). *)
Theorem create_sale_instances_is_empty {U : Unicode} (now : Z)
    (sales : list SalesValidator.sale) :
  Forall (fun r => SalesInstances.valid_mask r = false)
         (SalesValidator.validate_sales now sales) /\
  SalesInstances.create_sale_instances sales (SalesValidator.validate_sales now sales)
    = Some [].
Proof.
  split; [apply SalesValidatorMoreFacts.valid_mask_validate_sales|].
  apply SalesValidatorMoreFacts.create_sale_instances_none_valid,
    SalesValidatorMoreFacts.valid_mask_validate_sales.
Qed.

(** X10.  A sale dated after the reference date is never older than a
    non-negative number of years: [is_future_date] and [is_older_than_years]
    are not both [True]. *)
Theorem future_sale_is_not_old (now : Z) (s : SalesValidator.sale) (years : Z)
    (reference_date : option Z) :
  (0 <= years)%Z ->
  SalesValidator.is_future_date now s reference_date = true ->
  SalesValidator.is_older_than_years now s years reference_date = false.
Proof.
  unfold SalesValidator.is_future_date, SalesValidator.is_older_than_years.
  intros Hy. destruct (negb (truthy (SalesValidator.field s "sale_date"))); [done|].
  destruct (SalesValidator.field s "sale_date"); try done.
  intros Hf. apply Z.ltb_lt in Hf. apply Z.ltb_ge.
  assert (H1 : ~ (1 <= SalesValidator.days_of_us (default now reference_date - us) / 365)%Z).
  { rewrite SalesValidatorMoreFacts.days_years_ge. lia. }
  lia.
Qed.

(** X10 on a sale dated one day after the reference. *)
Lemma future_sale_is_not_old_witness :
  SalesValidator.is_older_than_years 0
    {[ "sale_date" := PDatetime 86400000000 ]} 0 None = false.
Proof.
  apply (future_sale_is_not_old 0 {[ "sale_date" := PDatetime 86400000000 ]} 0 None).
  - lia.
  - vm_compute. reflexivity.
Defined.

(** X11.  For a sale whose date is a [datetime], [is_older_than_years(sale,
    years)] is [True] exactly when the reference date is at least
    [365 * (years + 1)] whole days after the sale date: a year counts 365 days,
    and a sale of exactly [years] years and 364 days is not older than
    [years]. *)
Theorem is_older_than_years_threshold (now : Z) (s : SalesValidator.sale) (years d : Z)
    (reference_date : option Z) :
  SalesValidator.field s "sale_date" = PDatetime d ->
  SalesValidator.is_older_than_years now s years reference_date
  = bool_decide ((years + 1) * 365 * 86400000000 <= default now reference_date - d)%Z.
Proof.
  intros Hd. unfold SalesValidator.is_older_than_years. rewrite Hd. simpl.
  pose proof (SalesValidatorMoreFacts.days_years_ge (years + 1)
                (default now reference_date - d)) as Hk.
  destruct (years <? SalesValidator.days_of_us (default now reference_date - d) / 365)%Z
    eqn:E; symmetry.
  - apply Z.ltb_lt in E. apply bool_decide_eq_true. apply Hk. lia.
  - apply Z.ltb_ge in E. apply bool_decide_eq_false. intros H. apply Hk in H. lia.
Qed.

(** X11 on the repository's test: a sale made [3 * 365] days before the
    reference is older than 2 years and not older than 4. *)
Lemma is_older_than_years_threshold_witness :
  SalesValidator.is_older_than_years (3 * 365 * 86400000000)
    {[ "sale_date" := PDatetime 0 ]} 2 None = true /\
  SalesValidator.is_older_than_years (3 * 365 * 86400000000)
    {[ "sale_date" := PDatetime 0 ]} 4 None = false.
Proof.
  split.
  - rewrite (is_older_than_years_threshold (3 * 365 * 86400000000)
               {[ "sale_date" := PDatetime 0 ]} 2 0 None); reflexivity.
  - rewrite (is_older_than_years_threshold (3 * 365 * 86400000000)
               {[ "sale_date" := PDatetime 0 ]} 4 0 None); reflexivity.
Defined.

(** X12.  [compute_years_to_sale] is [True] exactly when the sale was made at
    least 365 whole days after the hire; a sale made before the hire gives
    [False], and a missing date gives [None]. *)
Theorem compute_years_to_sale_threshold (h s : Z) :
  SalesInstances.compute_years_to_sale (Some h) (Some s)
    = Some (bool_decide (365 * 86400000000 <= s - h)%Z) /\
  (forall o, SalesInstances.compute_years_to_sale None o = None) /\
  (forall o, SalesInstances.compute_years_to_sale o None = None).
Proof.
  split; [|split; [done | by intros [o|]]].
  unfold SalesInstances.compute_years_to_sale. f_equal.
  pose proof (SalesValidatorMoreFacts.days_years_ge 1 (s - h)) as Hk.
  destruct (1 <=? SalesValidator.days_of_us (s - h) / 365)%Z eqn:E; symmetry.
  - apply Z.leb_le in E. apply bool_decide_eq_true. apply Hk in E. lia.
  - apply Z.leb_gt in E. apply bool_decide_eq_false. intros H.
    assert (1 <= SalesValidator.days_of_us (s - h) / 365)%Z by (apply Hk; lia). lia.
Qed.

(** X13.  On a record that holds its prices under the underscore names only,
    [validate_prices] is [True] exactly when both are numbers and both are
    [>= 0], zero included: the fallback operand of [or] is returned as it is,
    falsy or not. *)
Theorem validate_prices_underscore_names (s : SalesValidator.sale) (u t : pyval) :
  s !! "unit_price" = None -> s !! "total_price" = None ->
  s !! "_unit_price" = Some u -> s !! "_total_price" = Some t ->
  SalesValidator.validate_prices s = true <->
  exists nu nt, as_num u = Some nu /\ as_num t = Some nt /\
                num_ge_zero nu = true /\ num_ge_zero nt = true.
Proof.
  intros Hu Ht Hu' Ht'. unfold SalesValidator.validate_prices.
  assert (Eu : SalesValidator.field s "unit_price" = u).
  { unfold SalesValidator.field, SalesValidator.get. by rewrite Hu, Hu'. }
  assert (Et : SalesValidator.field s "total_price" = t).
  { unfold SalesValidator.field, SalesValidator.get. by rewrite Ht, Ht'. }
  rewrite Eu, Et. split.
  - destruct (negb (is_none u) && negb (is_none t)); [|done].
    destruct (as_num u) as [nu|]; [|done].
    destruct (num_ge_zero nu) eqn:Gu; [|done].
    destruct (as_num t) as [nt|]; [|done]. intros Gt. by exists nu, nt.
  - intros (nu & nt & Hnu & Hnt & Gu & Gt).
    assert (Nu : is_none u = false) by (by destruct u).
    assert (Nt : is_none t = false) by (by destruct t).
    by rewrite Nu, Nt, Hnu, Hnt, Gu.
Qed.

(** X13 on a record with [_unit_price = 0.0] and [_total_price = 0.0]. *)
Lemma validate_prices_underscore_names_witness :
  SalesValidator.validate_prices
    {[ "_unit_price" := PFloat 0; "_total_price" := PFloat 0 ]} = true.
Proof.
  apply (validate_prices_underscore_names
           {[ "_unit_price" := PFloat 0; "_total_price" := PFloat 0 ]}
           (PFloat 0) (PFloat 0)); try (vm_compute; reflexivity).
  exists (NFloat 0), (NFloat 0). repeat split; vm_compute; reflexivity.
Defined.

(** X14.  For a sale whose status is ASCII text (or no text at all), at most
    one of [is_pending], [is_completed] and [is_cancelled] is [True]. *)
Theorem status_predicates_exclusive {U : Unicode} (HU : UnicodeSpec U)
    (s : SalesValidator.sale) :
  (forall t, SalesValidator.field s "sale_status" = PStr t ->
             Forall (fun c => (c < 128)%N) t) ->
  SalesValidator.is_pending s && SalesValidator.is_completed s = false /\
  SalesValidator.is_pending s && SalesValidator.is_cancelled s = false /\
  SalesValidator.is_completed s && SalesValidator.is_cancelled s = false.
Proof.
  intros Hascii.
  unfold SalesValidator.is_pending, SalesValidator.is_completed,
    SalesValidator.is_cancelled.
  destruct (SalesValidator.field s "sale_status") as [| | | |t|] eqn:Es;
    try (by rewrite ?andb_false_r).
  specialize (Hascii t eq_refl).
  assert (Hcancel :
    str_eqb (lower t) (str_of "cancelled") || str_eqb (lower t) (str_of "canceled") = true ->
    strip t = t).
  { intros Hc. apply (SalesValidatorMoreFacts.strip_letters t Hascii).
    apply orb_true_iff in Hc as [Hc | Hc]; apply PyStrFacts.str_eqb_eq in Hc;
      rewrite Hc; reflexivity. }
  repeat split.
  - destruct (str_eqb (lower (strip t)) (str_of "pending")) eqn:Ep; [|done].
    apply PyStrFacts.str_eqb_eq in Ep. rewrite Ep. reflexivity.
  - destruct (truthy (PStr t)); [|apply andb_false_r].
    destruct (str_eqb (lower t) (str_of "cancelled") || str_eqb (lower t) (str_of "canceled"))
      eqn:Ec; [|apply andb_false_r].
    rewrite (Hcancel eq_refl).
    apply orb_true_iff in Ec as [Hc | Hc]; apply PyStrFacts.str_eqb_eq in Hc;
      rewrite Hc; reflexivity.
  - destruct (truthy (PStr t)); [|apply andb_false_r].
    destruct (str_eqb (lower t) (str_of "cancelled") || str_eqb (lower t) (str_of "canceled"))
      eqn:Ec; [|apply andb_false_r].
    rewrite (Hcancel eq_refl).
    apply orb_true_iff in Ec as [Hc | Hc]; apply PyStrFacts.str_eqb_eq in Hc;
      rewrite Hc; reflexivity.
Qed.

(** X14 on a cancelled sale. *)
Lemma status_predicates_exclusive_witness :
  SalesValidator.is_pending (U := ascii_tables)
    {[ "sale_status" := PStr (str_of "Cancelled") ]}
  && SalesValidator.is_completed (U := ascii_tables)
       {[ "sale_status" := PStr (str_of "Cancelled") ]} = false /\
  SalesValidator.is_pending (U := ascii_tables)
    {[ "sale_status" := PStr (str_of "Cancelled") ]}
  && SalesValidator.is_cancelled (U := ascii_tables)
       {[ "sale_status" := PStr (str_of "Cancelled") ]} = false /\
  SalesValidator.is_completed (U := ascii_tables)
    {[ "sale_status" := PStr (str_of "Cancelled") ]}
  && SalesValidator.is_cancelled (U := ascii_tables)
       {[ "sale_status" := PStr (str_of "Cancelled") ]} = false.
Proof.
  apply (status_predicates_exclusive (U := ascii_tables) PyStrFacts.ascii_tables_spec
           {[ "sale_status" := PStr (str_of "Cancelled") ]}).
  intros t Ht. vm_compute in Ht. injection Ht as <-. repeat constructor.
Defined.

(** ** More on the reconciliation *)
Module FrameMoreFacts.
Import Frame FrameFacts.

Local Open Scope Z_scope.

Section Tables.
Context {cell : Type} `{EqDecision cell} {keys : MergeKeys cell}.
Variable NA : cell.
Variable parse_datetime : list cell -> cell -> option Z.

Abbreviation DataFrame := (DataFrame (cell := cell)).
Abbreviation column := (column (cell := cell)).

Implicit Types df : DataFrame.
Implicit Types emps : list (cell * option Z).

(** The labels the loop visits are those of the flagged rows of the join. *)
Lemma invalid_from_flagged (merged : list merged_row) : forall i idx,
  In idx (invalid_from i merged) ->
  exists j r, idx = Z.of_nat (i + j) /\ merged !! j = Some r /\ invalid_mask r = true.
Proof.
  induction merged as [|r rest IH]; intros i idx Hin; simpl in *; [done|].
  assert (Hrest : In idx (invalid_from (S i) rest) ->
                  exists j r0, idx = Z.of_nat (i + j) /\ (r :: rest) !! j = Some r0 /\
                               invalid_mask r0 = true).
  { intros H'. apply IH in H' as (j & r0 & -> & Hj & Hr0). exists (S j), r0.
    split; [f_equal; lia | done]. }
  destruct (invalid_mask r) eqn:Hr; [|by apply Hrest].
  destruct Hin as [<-|Hin]; [|by apply Hrest].
  exists 0%nat, r. split; [f_equal; lia | done].
Qed.

Lemma merge_from_zip emps (sellers : list cell) : forall q dates r,
  In r (merge_from emps None q sellers dates) ->
  exists s d p, In (s, d) (zip sellers dates) /\ In r (merge_sale emps None p s d).
Proof.
  induction sellers as [|s0 sellers IH]; intros q [|d0 dates] r; simpl; try done.
  rewrite in_app_iff. intros [Hin|Hin].
  - exists s0, d0, q. split; [by left | done].
  - apply IH in Hin as (s & d & p & Hz & Hin). exists s, d, p. split; [by right | done].
Qed.

(** A flagged row of the join comes from a flagged sale. *)
Lemma flagged_row_origin emps (sellers : list cell) dates r :
  In r (merge_from emps None 0 sellers dates) -> invalid_mask r = true ->
  exists s, In (s, m_sale_date r) (zip sellers dates) /\
            flagged emps s (m_sale_date r) = true.
Proof.
  intros Hin Hr. apply merge_from_zip in Hin as (s & d & p & Hz & Hin).
  destruct (merge_sale_source emps None p s d r Hin) as [_ Hd]. rewrite Hd.
  exists s. split; [done|]. apply (merge_sale_flagged emps p s d). eauto.
Qed.

(** Turns of the loop that find no employee to give the sale to. *)
Lemma reassign_all_nothing (merged : list merged_row) emps : forall idxs df,
  Forall (fun idx => exists r, merged !! Z.to_nat idx = Some r /\
                               valid_emps emps (m_sale_date r) = []) idxs ->
  reassign_all NA merged emps df idxs = Some df.
Proof.
  induction idxs as [|idx rest IH]; intros df Hall; simpl; [done|].
  inversion Hall as [|? ? (r & Hr & Hv) Hrest]; subst.
  unfold reassign. rewrite Hr. simpl. rewrite Hv. simpl. by apply IH.
Qed.

(** The steps of [clean_data] before the loop, on a sales table without a
    [hire_date] column. *)
Lemma clean_data_loop (sales_df employees_df : DataFrame)
    (sellers ids : list cell) (sd hd : column) :
  columns sales_df !! "seller_employee_id" = Some (Object sellers) ->
  columns sales_df !! "sale_date" = Some sd ->
  columns sales_df !! "hire_date" = None ->
  columns employees_df !! "employee_id" = Some (Object ids) ->
  columns employees_df !! "hire_date" = Some hd ->
  merge_accepts sellers ids = true ->
  let emps := zip ids (coerce_column parse_datetime hd) in
  let dates := coerce_column parse_datetime sd in
  let merged := merge_from emps None 0 sellers dates in
  clean_data NA parse_datetime sales_df employees_df =
    (sales_df' ← reassign_all NA merged emps
                   {| index := index sales_df;
                      columns := <["sale_date" := Datetime dates]> (columns sales_df) |}
                   (invalid_sales_idx merged);
     Some (sales_df', [])).
Proof.
  intros Hsc Hsd Hown Hec Hhd Hacc emps dates merged.
  rewrite (clean_data_steps NA parse_datetime sales_df employees_df sellers ids sd hd)
    by (done || by rewrite Hown).
  unfold own_hire. by rewrite Hown.
Qed.

(** When no flagged sale has an employee to go to, the loop writes nothing. *)
Lemma clean_data_nothing_to_fix (sales_df employees_df : DataFrame)
    (sellers ids : list cell) (sd hd : column) :
  columns sales_df !! "seller_employee_id" = Some (Object sellers) ->
  columns sales_df !! "sale_date" = Some sd ->
  columns sales_df !! "hire_date" = None ->
  columns employees_df !! "employee_id" = Some (Object ids) ->
  columns employees_df !! "hire_date" = Some hd ->
  merge_accepts sellers ids = true ->
  (forall s d, In (s, d) (zip sellers (coerce_column parse_datetime sd)) ->
     flagged (zip ids (coerce_column parse_datetime hd)) s d = true ->
     valid_emps (zip ids (coerce_column parse_datetime hd)) d = []) ->
  clean_data NA parse_datetime sales_df employees_df =
    Some ({| index := index sales_df;
             columns := <["sale_date" := Datetime (coerce_column parse_datetime sd)]>
                          (columns sales_df) |}, []).
Proof.
  intros Hsc Hsd Hown Hec Hhd Hacc Hfix.
  rewrite (clean_data_loop sales_df employees_df sellers ids sd hd Hsc Hsd Hown Hec Hhd Hacc).
  simpl. rewrite reassign_all_nothing; [done|].
  apply List.Forall_forall. intros idx Hin.
  apply invalid_from_flagged in Hin as (j & r & -> & Hj & Hr). simpl.
  rewrite Nat2Z.id. exists r. split; [done|].
  apply list_elem_of_lookup_2, list_elem_of_In in Hj.
  destruct (flagged_row_origin _ _ _ r Hj Hr) as (s & Hz & Hf).
  by apply (Hfix s).
Qed.

(** The result of [clean_data] when the join has one row per sale and the
    sales table carries the default index. *)
Lemma clean_data_aligned (sales_df employees_df : DataFrame)
    (sellers ids : list cell) (sd hd : column) :
  wf sales_df ->
  index sales_df = range_index (length (index sales_df)) ->
  columns sales_df !! "seller_employee_id" = Some (Object sellers) ->
  columns sales_df !! "sale_date" = Some sd ->
  columns sales_df !! "hire_date" = None ->
  columns employees_df !! "employee_id" = Some (Object ids) ->
  columns employees_df !! "hire_date" = Some hd ->
  merge_accepts sellers ids = true ->
  Forall (fun s => (length (matching (zip ids (coerce_column parse_datetime hd)) s) <= 1)%nat)
         sellers ->
  clean_data NA parse_datetime sales_df employees_df =
    Some ({| index := index sales_df;
             columns :=
               <["seller_employee_id" :=
                   Object (zip_with (reassigned (zip ids (coerce_column parse_datetime hd)))
                             sellers (coerce_column parse_datetime sd))]>
                 (<["sale_date" := Datetime (coerce_column parse_datetime sd)]>
                    (columns sales_df)) |}, []).
Proof.
  intros Hwf Hidx Hsc Hsd Hown Hec Hhd Hacc Hone.
  rewrite (clean_data_loop sales_df employees_df sellers ids sd hd Hsc Hsd Hown Hec Hhd Hacc).
  simpl.
  set (dates := coerce_column parse_datetime sd).
  set (rows := zip ids (coerce_column parse_datetime hd)).
  assert (Hls : length sellers = length (index sales_df)) by (by apply Hwf in Hsc).
  assert (Hld : length dates = length (index sales_df)).
  { unfold dates. rewrite coerce_column_length. by apply Hwf in Hsd. }
  rewrite (merge_from_joined_rows rows sellers 0 dates Hone).
  rewrite <- (insert_id (<["sale_date" := Datetime dates]> (columns sales_df))
                "seller_employee_id" (Object sellers)) at 1
    by (by rewrite lookup_insert_ne).
  rewrite Hidx at 1.
  pose proof (reassign_all_aligned NA rows
                (<["sale_date" := Datetime dates]> (columns sales_df))
                (length (index sales_df)) (joined_rows rows 0 sellers dates)
                sellers dates [] 0%nat) as Hloop.
  simpl in Hloop. unfold invalid_sales_idx. rewrite Hloop; try done; try lia.
  - simpl. by rewrite <- Hidx.
  - intros k s d Hs Hd. by apply joined_rows_lookup.
Qed.

(** *** Unique employee identifiers *)

Lemma matching_notin emps (s : cell) : ~ In s (map fst emps) -> matching emps s = [].
Proof.
  induction emps as [|e emps IH]; simpl; intros Hnotin; [done|].
  rewrite bool_decide_eq_false_2 by tauto. apply IH. tauto.
Qed.

Lemma matching_nodup emps (s : cell) :
  List.NoDup (map fst emps) -> (length (matching emps s) <= 1)%nat.
Proof.
  induction emps as [|e emps IH]; simpl; intros Hnd; [lia|].
  inversion Hnd as [|? ? Hnotin Hnd']; subst.
  case_bool_decide as He; simpl; [|by apply IH].
  fold (matching emps s). rewrite matching_notin; [simpl; lia|]. by rewrite <- He.
Qed.

Lemma nodup_fst_inj emps (e e1 : cell * option Z) :
  List.NoDup (map fst emps) -> In e emps -> In e1 emps -> e.1 = e1.1 -> e = e1.
Proof.
  induction emps as [|e0 emps IH]; simpl; intros Hnd He He1 Heq; [done|].
  inversion Hnd as [|? ? Hnotin Hnd']; subst.
  destruct He as [->|He], He1 as [->|He1]; try done.
  - exfalso. apply Hnotin. rewrite Heq. by apply in_map.
  - exfalso. apply Hnotin. rewrite <- Heq. by apply in_map.
  - by apply IH.
Qed.

Lemma nodup_zip_fst (ids : list cell) : forall (hires : list (option Z)),
  List.NoDup ids -> List.NoDup (map fst (zip ids hires)).
Proof.
  induction ids as [|i ids IH]; intros [|h hires] Hnd; simpl; try constructor.
  - inversion Hnd as [|? ? Hnotin _]; subst. intros Hin. apply Hnotin.
    apply in_map_iff in Hin as ([i' h'] & <- & Hin). simpl.
    clear -Hin. revert hires Hin. induction ids as [|a ids IH]; intros [|b hires]; simpl;
      try done. intros [[= -> ->]|Hin]; [by left | right; by apply (IH hires)].
  - apply IH. by inversion Hnd.
Qed.

Lemma valid_emps_head emps d (v : cell) rest :
  valid_emps emps d = v :: rest ->
  exists e, In e emps /\ e.1 = v /\ dt_le e.2 d = true.
Proof.
  unfold valid_emps. intros Hv.
  assert (Hin : In v (map fst (List.filter (fun e => dt_le e.2 d) emps)))
    by (rewrite Hv; by left).
  apply in_map_iff in Hin as (e & He & Hin). apply filter_In in Hin as [Hin Hle].
  by exists e.
Qed.

(** With unique employee identifiers, a sale the loop has reassigned is no
    longer flagged; one it could not reassign has no employee to go to. *)
Lemma reassigned_settled emps (s : cell) d :
  List.NoDup (map fst emps) ->
  flagged emps (reassigned emps s d) d = true -> valid_emps emps d = [].
Proof.
  intros Hnd. unfold reassigned. destruct (flagged emps s d) eqn:Hf; [|by rewrite Hf].
  destruct (valid_emps emps d) as [|v rest] eqn:Hv; [done|].
  intros Hf'. exfalso. apply flagged_spec in Hf' as (e & He & Hev & Hlt).
  apply valid_emps_head in Hv as (e1 & He1 & Hv1 & Hle).
  assert (e = e1) as -> by (apply (nodup_fst_inj emps); congruence).
  unfold dt_lt, dt_le in *. destruct d as [x|], (e1.2) as [y|]; try done. lia.
Qed.

Lemma In_zip_reassigned emps (sellers : list cell) : forall dates s' d,
  In (s', d) (zip (zip_with (reassigned emps) sellers dates) dates) ->
  exists s, s' = reassigned emps s d.
Proof.
  induction sellers as [|s0 sellers IH]; intros [|d0 dates] s' d; simpl; try done.
  intros [[= <- <-]|Hin]; [by exists s0 | by apply (IH dates)].
Qed.

(** *** The sellers the loop writes *)

Lemma set_where_lookup idx label (v : cell) : forall l k c,
  set_where idx label v l !! k = Some c -> c = v \/ l !! k = Some c.
Proof.
  induction idx as [|i idx IH]; intros [|c0 l] k c; simpl; try (by right).
  destruct k as [|k]; simpl.
  - case_bool_decide; intros [= <-]; [by left | by right].
  - apply IH.
Qed.

Lemma at_set_sellers df label (v : cell) l :
  columns df !! "seller_employee_id" = Some (Object l) ->
  exists df' l', at_set NA df label "seller_employee_id" v = Some df' /\
    columns df' !! "seller_employee_id" = Some (Object l') /\
    forall k c, l' !! k = Some c -> c = v \/ l !! k = Some c.
Proof.
  intros Hl. unfold at_set. rewrite Hl. case_bool_decide.
  - eexists _, _. split; [done|]. simpl. rewrite lookup_insert_eq. split; [done|].
    apply set_where_lookup.
  - eexists _, _. split; [done|]. simpl. rewrite lookup_insert_eq. split; [done|].
    intros k c Hk. apply lookup_app_Some in Hk as [Hk | [_ Hk]]; [by right|].
    left. destruct (k - length l)%nat; simpl in Hk; [by injection Hk | done].
Qed.

Lemma reassign_all_sellers (merged : list merged_row) emps (sellers : list cell) :
  forall idxs df l,
  columns df !! "seller_employee_id" = Some (Object l) ->
  (forall k c, l !! k = Some c -> sellers !! k = Some c \/ In c (map fst emps)) ->
  Forall (fun idx => is_Some (merged !! Z.to_nat idx)) idxs ->
  exists df' l', reassign_all NA merged emps df idxs = Some df' /\
    columns df' !! "seller_employee_id" = Some (Object l') /\
    forall k c, l' !! k = Some c -> sellers !! k = Some c \/ In c (map fst emps).
Proof.
  induction idxs as [|idx rest IH]; intros df l Hl Hinv Hin; simpl.
  - by exists df, l.
  - inversion Hin as [|? ? [row Hrow] Hrest]; subst.
    unfold reassign. rewrite Hrow. simpl.
    destruct (valid_emps emps (m_sale_date row)) as [|v vs] eqn:Hv.
    + simpl. by apply (IH df l).
    + destruct (at_set_sellers df idx v l Hl) as (df1 & l1 & -> & Hl1 & Hfrom). simpl.
      apply (IH df1 l1 Hl1); [|done].
      intros k c Hk. destruct (Hfrom k c Hk) as [-> | Hk']; [|by apply Hinv].
      right. apply valid_emps_head in Hv as (e & He & <- & _). by apply in_map.
Qed.

Lemma In_zip_fst (ids : list cell) : forall (hires : list (option Z)) c,
  In c (map fst (zip ids hires)) -> In c ids.
Proof.
  induction ids as [|i ids IH]; intros [|h hires] c; simpl; try done.
  intros [<-|Hin]; [by left | right; by apply (IH hires)].
Qed.

End Tables.

End FrameMoreFacts.

(** X15.  On two identifier columns that [merge] accepts to compare,
    [clean_data] changes nothing but the dtype of [sale_date] when no sale is
    both dated before the hire of an employee row it joins and has an employee
    hired on or before its date to go to: in particular when no sale is dated
    before its seller's hire.  This holds whatever the index of the sales table
    is and however often an employee identifier is repeated. *)
Theorem clean_data_without_fixable_sale {cell : Type} `{EqDecision cell}
    {keys : Frame.MergeKeys cell} (NA : cell) (parse_datetime : list cell -> cell -> option Z)
    (sales_df employees_df : Frame.DataFrame (cell := cell))
    (sellers ids : list cell) (sd hd : Frame.column) :
  Frame.columns sales_df !! "seller_employee_id" = Some (Frame.Object sellers) ->
  Frame.columns sales_df !! "sale_date" = Some sd ->
  Frame.columns sales_df !! "hire_date" = None ->
  Frame.columns employees_df !! "employee_id" = Some (Frame.Object ids) ->
  Frame.columns employees_df !! "hire_date" = Some hd ->
  Frame.merge_accepts sellers ids = true ->
  Forall (fun p =>
            Frame.flagged (zip ids (Frame.coerce_column parse_datetime hd)) p.1 p.2 = true ->
            Frame.valid_emps (zip ids (Frame.coerce_column parse_datetime hd)) p.2 = [])
         (zip sellers (Frame.coerce_column parse_datetime sd)) ->
  Frame.clean_data NA parse_datetime sales_df employees_df =
    Some ({| Frame.index := Frame.index sales_df;
             Frame.columns :=
               <["sale_date" := Frame.Datetime (Frame.coerce_column parse_datetime sd)]>
                 (Frame.columns sales_df) |}, []).
Proof.
  intros Hsc Hsd Hown Hec Hhd Hacc Hfix.
  apply (FrameMoreFacts.clean_data_nothing_to_fix NA parse_datetime sales_df employees_df
           sellers ids sd hd); try done.
  intros s d Hin. rewrite List.Forall_forall in Hfix. apply (Hfix (s, d) Hin).
Qed.

(** X15 on two sales of 2023-01-01 in a table labelled 1, 0, with the row of
    E2 entered twice in the employee table: neither sale is dated before a
    hire, and the dates are read from integers. *)
Lemma clean_data_without_fixable_sale_witness :
  TableFixtures.clean MoreTableFixtures.late_sales TableFixtures.employees_e2_twice =
    Some ({| Frame.index := [1; 0]%Z;
             Frame.columns :=
               {[ "sale_id" := Frame.Object [TableFixtures.SStr "S1"; TableFixtures.SStr "S2"];
                  "seller_employee_id" :=
                    Frame.Object [TableFixtures.SStr "E1"; TableFixtures.SStr "E2"];
                  "sale_date" := Frame.Datetime [Some TableFixtures.d_2023_01_01;
                                                 Some TableFixtures.d_2023_01_01] ]} |}, []).
Proof.
  rewrite (clean_data_without_fixable_sale TableFixtures.SNaN TableFixtures.parse_epoch
             MoreTableFixtures.late_sales TableFixtures.employees_e2_twice
             [TableFixtures.SStr "E1"; TableFixtures.SStr "E2"]
             [TableFixtures.SStr "E1"; TableFixtures.SStr "E2"; TableFixtures.SStr "E2"]
             (Frame.Object [TableFixtures.SInt TableFixtures.d_2023_01_01;
                            TableFixtures.SInt TableFixtures.d_2023_01_01])
             (Frame.Datetime [Some TableFixtures.d_2021_01_01;
                              Some TableFixtures.d_2023_01_01;
                              Some TableFixtures.d_2023_01_01])
             eq_refl eq_refl eq_refl eq_refl eq_refl).
  - vm_compute. reflexivity.
  - vm_compute. reflexivity.
  - repeat constructor; vm_compute; intros Hf; discriminate Hf.
Defined.

(** X16.  With unique employee identifiers, a default index and no
    [hire_date] column in the sales table, and with seller columns that
    [merge] accepts to compare with the employee identifiers in both runs,
    [clean_data] reaches a fixed point: run again on its own result (with the
    employee table as the first run left it), it returns that result
    unchanged; and in the result every sale still dated before its seller's
    hire is one for which no employee was hired on or before the sale date. *)
Theorem clean_data_settles_on_unique_employees {cell : Type} `{EqDecision cell}
    {keys : Frame.MergeKeys cell} (NA : cell) (parse_datetime : list cell -> cell -> option Z)
    (sales_df employees_df : Frame.DataFrame (cell := cell))
    (sellers ids : list cell) (sd hd : Frame.column) :
  Frame.wf sales_df ->
  Frame.index sales_df = Frame.range_index (length (Frame.index sales_df)) ->
  Frame.columns sales_df !! "seller_employee_id" = Some (Frame.Object sellers) ->
  Frame.columns sales_df !! "sale_date" = Some sd ->
  Frame.columns sales_df !! "hire_date" = None ->
  Frame.columns employees_df !! "employee_id" = Some (Frame.Object ids) ->
  Frame.columns employees_df !! "hire_date" = Some hd ->
  List.NoDup ids ->
  Frame.merge_accepts sellers ids = true ->
  Frame.merge_accepts
    (zip_with (Frame.reassigned (zip ids (Frame.coerce_column parse_datetime hd)))
       sellers (Frame.coerce_column parse_datetime sd)) ids = true ->
  exists cleaned emps1 sellers' dates,
    Frame.ensure_datetime parse_datetime employees_df "hire_date" = Some emps1 /\
    Frame.clean_data NA parse_datetime sales_df employees_df = Some (cleaned, []) /\
    Frame.columns cleaned !! "seller_employee_id" = Some (Frame.Object sellers') /\
    Frame.columns cleaned !! "sale_date" = Some (Frame.Datetime dates) /\
    Frame.clean_data NA parse_datetime cleaned emps1 = Some (cleaned, []) /\
    Forall (fun p =>
              Frame.flagged (zip ids (Frame.coerce_column parse_datetime hd)) p.1 p.2 = true ->
              Frame.valid_emps (zip ids (Frame.coerce_column parse_datetime hd)) p.2 = [])
           (zip sellers' dates).
Proof.
  intros Hwf Hidx Hsc Hsd Hown Hec Hhd Hnd Hacc Hacc'.
  set (emps := zip ids (Frame.coerce_column parse_datetime hd)).
  set (dates := Frame.coerce_column parse_datetime sd).
  assert (Hnd' : List.NoDup (map fst emps)) by (by apply FrameMoreFacts.nodup_zip_fst).
  assert (Hsettled : forall s d,
    In (s, d) (zip (zip_with (Frame.reassigned emps) sellers dates) dates) ->
    Frame.flagged emps s d = true -> Frame.valid_emps emps d = []).
  { intros s d Hin Hf. apply FrameMoreFacts.In_zip_reassigned in Hin as [s0 ->].
    by apply (FrameMoreFacts.reassigned_settled emps s0 d). }
  eexists _, _, (zip_with (Frame.reassigned emps) sellers dates), dates.
  split; [by apply FrameFacts.ensure_datetime_spec|].
  split.
  { apply (FrameMoreFacts.clean_data_aligned NA parse_datetime sales_df employees_df
             sellers ids sd hd); try done.
    apply List.Forall_forall. intros s _. by apply FrameMoreFacts.matching_nodup. }
  simpl. split; [by rewrite lookup_insert_eq|].
  split; [by rewrite lookup_insert_ne, lookup_insert_eq|].
  split; [|apply List.Forall_forall; intros [s d] Hin; by apply Hsettled].
  rewrite (FrameMoreFacts.clean_data_nothing_to_fix NA parse_datetime _ _
             (zip_with (Frame.reassigned emps) sellers dates) ids
             (Frame.Datetime dates) (Frame.Datetime (Frame.coerce_column parse_datetime hd))).
  - simpl. do 3 f_equal. apply insert_id.
    by rewrite lookup_insert_ne, lookup_insert_eq.
  - simpl. by rewrite lookup_insert_eq.
  - simpl. by rewrite lookup_insert_ne, lookup_insert_eq.
  - simpl. by rewrite !lookup_insert_ne.
  - simpl. by rewrite lookup_insert_ne.
  - simpl. by rewrite lookup_insert_eq.
  - exact Hacc'.
  - simpl. exact Hsettled.
Qed.

(** X16 on two sales and two employees: S1 goes from E2 to E1, S2 keeps the
    unknown E9, and a second run changes nothing. *)
Lemma clean_data_settles_on_unique_employees_witness :
  exists cleaned emps1 sellers' dates,
    Frame.ensure_datetime TableFixtures.parse_epoch TableFixtures.two_employees "hire_date"
      = Some emps1 /\
    TableFixtures.clean TableFixtures.two_sales TableFixtures.two_employees
      = Some (cleaned, []) /\
    Frame.columns cleaned !! "seller_employee_id" = Some (Frame.Object sellers') /\
    Frame.columns cleaned !! "sale_date" = Some (Frame.Datetime dates) /\
    TableFixtures.clean cleaned emps1 = Some (cleaned, []) /\
    sellers' = [TableFixtures.SStr "E1"; TableFixtures.SStr "E9"].
Proof.
  assert (Hwf : Frame.wf TableFixtures.two_sales).
  { apply (bool_decide_unpack
             (map_Forall (fun _ c => Frame.column_length c
                                     = length (Frame.index TableFixtures.two_sales))
                         (Frame.columns TableFixtures.two_sales))).
    vm_compute. exact I. }
  assert (Hnd : List.NoDup [TableFixtures.SStr "E1"; TableFixtures.SStr "E2"]).
  { apply NoDup_ListNoDup, (bool_decide_unpack _). vm_compute. exact I. }
  assert (Hacc :
    Frame.merge_accepts [TableFixtures.SStr "E2"; TableFixtures.SStr "E9"]
                        [TableFixtures.SStr "E1"; TableFixtures.SStr "E2"] = true)
    by (vm_compute; reflexivity).
  assert (Hacc' :
    Frame.merge_accepts
      (zip_with (Frame.reassigned
                   (zip [TableFixtures.SStr "E1"; TableFixtures.SStr "E2"]
                      (Frame.coerce_column TableFixtures.parse_epoch
                         (Frame.Datetime [Some TableFixtures.d_2021_01_01;
                                          Some TableFixtures.d_2023_01_01]))))
         [TableFixtures.SStr "E2"; TableFixtures.SStr "E9"]
         (Frame.coerce_column TableFixtures.parse_epoch
            (Frame.Datetime [Some TableFixtures.d_2022_06_01;
                             Some TableFixtures.d_2022_06_01])))
      [TableFixtures.SStr "E1"; TableFixtures.SStr "E2"] = true)
    by (vm_compute; reflexivity).
  destruct (clean_data_settles_on_unique_employees
              TableFixtures.SNaN TableFixtures.parse_epoch
              TableFixtures.two_sales TableFixtures.two_employees
              [TableFixtures.SStr "E2"; TableFixtures.SStr "E9"]
              [TableFixtures.SStr "E1"; TableFixtures.SStr "E2"]
              (Frame.Datetime [Some TableFixtures.d_2022_06_01; Some TableFixtures.d_2022_06_01])
              (Frame.Datetime [Some TableFixtures.d_2021_01_01; Some TableFixtures.d_2023_01_01])
              Hwf eq_refl eq_refl eq_refl eq_refl eq_refl eq_refl Hnd Hacc Hacc')
    as (cleaned & emps1 & sellers' & dates & H1 & H2 & H3 & H4 & H5 & _).
  exists cleaned, emps1, sellers', dates. repeat (split; [assumption|]).
  vm_compute in H2. injection H2 as <-. vm_compute in H3. injection H3 as <-.
  reflexivity.
Defined.

(** X17.  [clean_data] never invents a seller: every cell of
    [seller_employee_id] in the table it returns, in a row the input had or in
    a row the loop appended, is either the cell the input had at that position
    or an identifier of the employee table.  This holds for every table the
    model covers on which [merge] accepts to compare the two identifier
    columns, misaligned or not. *)
Theorem clean_data_sellers_come_from_employees {cell : Type} `{EqDecision cell}
    {keys : Frame.MergeKeys cell} (NA : cell) (parse_datetime : list cell -> cell -> option Z)
    (sales_df employees_df : Frame.DataFrame (cell := cell))
    (sellers ids : list cell) :
  Frame.columns sales_df !! "seller_employee_id" = Some (Frame.Object sellers) ->
  Frame.columns employees_df !! "employee_id" = Some (Frame.Object ids) ->
  (forall l, Frame.columns sales_df !! "hire_date" <> Some (Frame.Object l)) ->
  Frame.merge_accepts sellers ids = true ->
  exists sales_df' log sellers',
    Frame.clean_data NA parse_datetime sales_df employees_df = Some (sales_df', log) /\
    Frame.columns sales_df' !! "seller_employee_id" = Some (Frame.Object sellers') /\
    forall k c, sellers' !! k = Some c -> sellers !! k = Some c \/ In c ids.
Proof.
  intros Hsc Hec Hown Hacc. unfold Frame.clean_data.
  destruct (Frame.missing_columns sales_df Frame.required_sales_cols) as [|c1 r1] eqn:Hms;
    [|eexists _, _, sellers; split; [done|]; split; [done | by left]].
  destruct (Frame.missing_columns employees_df Frame.required_employee_cols)
    as [|c2 r2] eqn:Hme;
    [|eexists _, _, sellers; split; [done|]; split; [done | by left]].
  pose proof (FrameFacts.missing_columns_nil _ _ Hms) as Hs.
  pose proof (FrameFacts.missing_columns_nil _ _ Hme) as He.
  destruct (Hs "sale_date") as [sd Hsd]; [simpl; tauto|].
  destruct (He "hire_date") as [hd Hhd]; [simpl; tauto|].
  rewrite (FrameFacts.ensure_datetime_spec parse_datetime sales_df "sale_date" sd Hsd). simpl.
  rewrite (FrameFacts.ensure_datetime_spec parse_datetime employees_df "hire_date" hd Hhd).
  simpl.
  set (sales1 := {| Frame.index := Frame.index sales_df;
                    Frame.columns :=
                      <["sale_date" := Frame.Datetime (Frame.coerce_column parse_datetime sd)]>
                        (Frame.columns sales_df) |}).
  set (emps1 := {| Frame.index := Frame.index employees_df;
                   Frame.columns :=
                     <["hire_date" := Frame.Datetime (Frame.coerce_column parse_datetime hd)]>
                       (Frame.columns employees_df) |}).
  assert (Hmerge : exists merged, Frame.merge sales1 emps1 = Some merged).
  { unfold Frame.merge, Frame.get_object, Frame.get_datetime. simpl.
    rewrite (lookup_insert_ne (Frame.columns sales_df) "sale_date" "seller_employee_id")
      by done.
    rewrite Hsc. simpl. rewrite lookup_insert_eq. simpl.
    rewrite (lookup_insert_ne (Frame.columns employees_df) "hire_date" "employee_id")
      by done.
    rewrite Hec. simpl. rewrite lookup_insert_eq. simpl. rewrite Hacc.
    rewrite (lookup_insert_ne (Frame.columns sales_df) "sale_date" "hire_date") by done.
    destruct (Frame.columns sales_df !! "hire_date") as [[own|own]|] eqn:Hh; eauto.
    by destruct (Hown own). }
  destruct Hmerge as [merged ->]. simpl.
  unfold Frame.get_object, Frame.get_datetime. simpl.
  rewrite (lookup_insert_ne (Frame.columns employees_df) "hire_date" "employee_id") by done.
  rewrite Hec. simpl. rewrite lookup_insert_eq. simpl.
  destruct (FrameMoreFacts.reassign_all_sellers NA merged
              (zip ids (Frame.coerce_column parse_datetime hd)) sellers
              (Frame.invalid_sales_idx merged) sales1 sellers)
    as (df' & l' & -> & Hl' & Hfrom).
  - simpl. by rewrite lookup_insert_ne.
  - intros k c Hk. by left.
  - apply FrameFacts.invalid_sales_idx_in_range.
  - simpl. exists df', [], l'. split; [done|]. split; [done|].
    intros k c Hk. destruct (Hfrom k c Hk) as [Hk' | Hin]; [by left|].
    right. by apply FrameMoreFacts.In_zip_fst in Hin.
Qed.

(** X17 on the employee table with E2 entered twice, where the loop writes a
    sale it was not computed for: the sellers returned, E1 and E1, are
    employees. *)
Lemma clean_data_sellers_come_from_employees_witness :
  exists sales_df' log sellers',
    TableFixtures.clean TableFixtures.two_sales TableFixtures.employees_e2_twice
      = Some (sales_df', log) /\
    Frame.columns sales_df' !! "seller_employee_id" = Some (Frame.Object sellers') /\
    forall k c, sellers' !! k = Some c ->
      [TableFixtures.SStr "E2"; TableFixtures.SStr "E9"] !! k = Some c \/
      In c [TableFixtures.SStr "E1"; TableFixtures.SStr "E2"; TableFixtures.SStr "E2"].
Proof.
  apply (clean_data_sellers_come_from_employees TableFixtures.SNaN TableFixtures.parse_epoch
           TableFixtures.two_sales TableFixtures.employees_e2_twice
           [TableFixtures.SStr "E2"; TableFixtures.SStr "E9"]
           [TableFixtures.SStr "E1"; TableFixtures.SStr "E2"; TableFixtures.SStr "E2"]).
  - reflexivity.
  - reflexivity.
  - intros l Hl. vm_compute in Hl. discriminate Hl.
  - vm_compute. reflexivity.
Defined.

(** X18.  [ensure_datetime(df, col)] raises (here [None]) exactly when the
    column is missing.  Otherwise it returns a table with the same index in
    which [col] is of a datetime dtype and every other column is untouched, and
    applying it again changes nothing. *)
Theorem ensure_datetime_idempotent {cell : Type}
    (parse_datetime : list cell -> cell -> option Z)
    (df : Frame.DataFrame (cell := cell)) (col : string) :
  (Frame.ensure_datetime parse_datetime df col = None <-> Frame.columns df !! col = None) /\
  forall df1, Frame.ensure_datetime parse_datetime df col = Some df1 ->
    Frame.ensure_datetime parse_datetime df1 col = Some df1 /\
    Frame.index df1 = Frame.index df /\
    (exists l, Frame.columns df1 !! col = Some (Frame.Datetime l)) /\
    forall name, name <> col -> Frame.columns df1 !! name = Frame.columns df !! name.
Proof.
  unfold Frame.ensure_datetime. split.
  - destruct (Frame.columns df !! col) as [[l|l]|]; split; done.
  - intros df1. destruct (Frame.columns df !! col) as [[l|l]|] eqn:Hc; [| |done].
    + intros [= <-]. rewrite Hc. repeat split; eauto.
    + intros [= <-]. simpl. rewrite lookup_insert_eq. repeat split; eauto.
      intros name Hne. by rewrite lookup_insert_ne.
Qed.

(** ** Words of a string *)
Module PySplitFacts.
Import PyStr PySplit.

Section WithTables.
Context {U : Unicode}.

(** No whitespace in [s]. *)
Abbreviation solid s := (forallb (fun c => negb (is_space c)) s = true).

Lemma solid_rev (w : str) : solid w -> solid (rev w).
Proof.
  rewrite !forallb_forall. intros Hw c Hc. apply Hw. by apply in_rev.
Qed.

(** Every word [split] returns is non-empty and holds no whitespace. *)
Lemma split_from_words (s : str) : forall word,
  solid word ->
  Forall (fun w => w <> [] /\ solid w) (split_from word s).
Proof.
  induction s as [|c t IH]; intros word Hword; simpl.
  - destruct word as [|a word]; constructor; [|constructor].
    split; [|by apply solid_rev].
    intros E. apply (f_equal (@length _)) in E. rewrite length_rev in E. done.
  - destruct (is_space c) eqn:Ec.
    + destruct word as [|a word]; [by apply IH|].
      constructor; [|by apply IH].
      split; [|by apply solid_rev].
      intros E. apply (f_equal (@length _)) in E. rewrite length_rev in E. done.
    + apply IH. simpl. by rewrite Ec.
Qed.

(** A string without whitespace is one word. *)
Lemma split_from_solid (s : str) : forall word,
  solid s ->
  split_from word s = match rev word ++ s with [] => [] | w => [w] end.
Proof.
  induction s as [|c t IH]; intros word Hs; simpl.
  - rewrite app_nil_r. destruct word as [|a word]; [done|].
    destruct (rev (a :: word)) eqn:E; [|done].
    apply (f_equal (@length _)) in E. rewrite length_rev in E. done.
  - simpl in Hs. apply andb_true_iff in Hs as [Hc Ht].
    apply negb_true_iff in Hc. rewrite Hc, (IH (c :: word) Ht). simpl.
    rewrite <- app_assoc. simpl. by destruct (rev word).
Qed.

Lemma split_word (w : str) : w <> [] -> solid w -> split w = [w].
Proof.
  intros Hne Hw. unfold split. rewrite split_from_solid by done. simpl.
  by destruct w.
Qed.

(** [split] finds no word exactly in a string of whitespace. *)
Lemma split_from_nil (s : str) : forall word,
  split_from word s = [] <-> word = [] /\ forallb is_space s = true.
Proof.
  induction s as [|c t IH]; intros word; simpl.
  - destruct word; split; try done. by intros [? _].
  - destruct (is_space c) eqn:Ec; simpl.
    + destruct word as [|a word]; [apply IH|]. split; [done | by intros [? _]].
    + rewrite IH. split; [by intros [? _] | by intros [_ ?]].
Qed.

Lemma split_nil (s : str) : split s = [] <-> forallb is_space s = true.
Proof.
  unfold split. rewrite split_from_nil. split; [by intros [_ ?] | done].
Qed.

Lemma split_words (s : str) : Forall (fun w => w <> [] /\ solid w) (split s).
Proof. by apply split_from_words. Qed.

End WithTables.

Lemma join_nonempty (sep w : str) (rest : list str) : w <> [] -> join sep (w :: rest) <> [].
Proof.
  intros Hw. simpl. destruct rest; [done|]. by destruct w.
Qed.

End PySplitFacts.

(** X19.  [clean_gender_from_name] always answers with the gender inferred
    from the name: the gender the record had is returned only when it is that
    very string.  The answer is one of [Male], [Female], [Other] and [Unknown],
    whatever the detector says and whatever the name is. *)
Theorem clean_gender_is_inferred_gender {U : PyStr.Unicode}
    (get_gender : PyStr.str -> option PyStr.str) (name current_gender : pyval) :
  EmployeesCleaner.clean_gender_from_name get_gender name current_gender
    = PStr (EmployeesCleaner.infer_gender_from_name get_gender name) /\
  In (EmployeesCleaner.infer_gender_from_name get_gender name)
     [EmployeesCleaner.Male; EmployeesCleaner.Female; EmployeesCleaner.Other;
      EmployeesCleaner.Unknown].
Proof.
  split.
  - unfold EmployeesCleaner.clean_gender_from_name, EmployeesCleaner.ne_str.
    destruct current_gender as [| | | |s|]; try done.
    destruct (PyStr.str_eqb s _) eqn:E; [|done]. simpl.
    apply PyStrFacts.str_eqb_eq in E. by rewrite E.
  - unfold EmployeesCleaner.infer_gender_from_name.
    destruct (EmployeesCleaner.first_word name) as [first_name|]; [|simpl; tauto].
    destruct (get_gender first_name) as [result|]; [|simpl; tauto].
    repeat (match goal with |- context [if ?b then _ else _] => destruct b end);
      simpl; tauto.
Qed.

(** X20.  [infer_gender_from_name] reads the first word of a name and nothing
    else: a name gets the gender of its first word taken alone.  A name
    that holds no word, made of whitespace only, gets [Unknown] without the
    detector being asked; [split] finds no word exactly in such names. *)
Theorem infer_gender_reads_first_word {U : PyStr.Unicode}
    (get_gender : PyStr.str -> option PyStr.str) (s : PyStr.str) :
  (forall w rest, PySplit.split s = w :: rest ->
     EmployeesCleaner.infer_gender_from_name get_gender (PStr s)
     = EmployeesCleaner.infer_gender_from_name get_gender (PStr w)) /\
  (s <> [] -> PySplit.split s = [] ->
     EmployeesCleaner.infer_gender_from_name get_gender (PStr s)
     = EmployeesCleaner.Unknown) /\
  (PySplit.split s = [] <-> forallb PyStr.is_space s = true).
Proof.
  split; [|split; [|apply PySplitFacts.split_nil]].
  - intros w rest Hs.
    pose proof (PySplitFacts.split_words s) as Hw. rewrite Hs in Hw.
    inversion Hw as [|? ? [Hne Hsolid] _]; subst.
    unfold EmployeesCleaner.infer_gender_from_name, EmployeesCleaner.first_word.
    rewrite (PySplitFacts.split_word w Hne Hsolid), Hs. simpl.
    destruct s as [|c s]; [done|]. by destruct w.
  - intros Hne Hs.
    unfold EmployeesCleaner.infer_gender_from_name, EmployeesCleaner.first_word.
    rewrite Hs. by destruct s.
Qed.

(** X20 and X19 with a detector that knows one name. *)
Example infer_gender_examples :
  let get_gender := fun n : PyStr.str =>
    Some (if PyStr.str_eqb n (PyStr.str_of "Maria") then PyStr.str_of "female"
          else PyStr.str_of "unknown") in
  EmployeesCleaner.infer_gender_from_name (U := PyStr.ascii_tables) get_gender
    (PStr (PyStr.str_of "  Maria  Lopez ")) = EmployeesCleaner.Female /\
  EmployeesCleaner.infer_gender_from_name (U := PyStr.ascii_tables) get_gender
    (PStr (PyStr.str_of "   ")) = EmployeesCleaner.Unknown /\
  EmployeesCleaner.clean_gender_from_name (U := PyStr.ascii_tables) get_gender
    (PStr (PyStr.str_of "Lopez")) (PStr (PyStr.str_of "Female"))
    = PStr EmployeesCleaner.Unknown.
Proof. repeat split; vm_compute; reflexivity. Qed.

(** X21.  The [First Name] that [calculate_relations] computes raises
    [IndexError] exactly on a name that is not empty and holds whitespace
    only.  Otherwise the first and the last name, put together again with one
    space, are the words of the name joined by single spaces. *)
Theorem first_and_last_name_recompose {U : PyStr.Unicode} (x : PyStr.str) :
  (RelationNames.first_name x = None <-> x <> [] /\ forallb PyStr.is_space x = true) /\
  forall first, RelationNames.first_name x = Some first ->
    PySplit.join (PyStr.str_of " ") (PySplit.split x)
    = if PyStr.is_empty (RelationNames.last_name x) then first
      else first ++ PyStr.str_of " " ++ RelationNames.last_name x.
Proof.
  unfold RelationNames.first_name, RelationNames.last_name. split.
  - destruct x as [|c x]; [simpl; split; [done | by intros [? _]]|].
    cbn [PyStr.is_empty negb]. rewrite <- (PySplitFacts.split_nil (c :: x)).
    destruct (PySplit.split (c :: x)); simpl.
    + split; [by intros _ | done].
    + split; [done | by intros [_ ?]].
  - intros first. destruct x as [|c x]; simpl; [by intros [= <-]|].
    pose proof (PySplitFacts.split_words (c :: x)) as Hw.
    destruct (PySplit.split (c :: x)) as [|w [|w' rest]]; simpl; try done.
    + by intros [= <-].
    + intros [= <-].
      inversion Hw as [|? ? _ Hw']; subst. inversion Hw' as [|? ? [Hne _] _]; subst.
      pose proof (PySplitFacts.join_nonempty (PyStr.str_of " ") w' rest Hne) as Hj.
      simpl in Hj. destruct rest as [|w'' rest]; simpl.
      * by destruct w'.
      * destruct w'; [done|]. reflexivity.
Qed.

(** X21 on three names. *)
Example first_and_last_name_examples :
  RelationNames.first_name (U := PyStr.ascii_tables) (PyStr.str_of " Ana  Maria Lopez ")
    = Some (PyStr.str_of "Ana") /\
  RelationNames.last_name (U := PyStr.ascii_tables) (PyStr.str_of " Ana  Maria Lopez ")
    = PyStr.str_of "Maria Lopez" /\
  RelationNames.first_name (U := PyStr.ascii_tables) (PyStr.str_of "  ") = None /\
  RelationNames.first_name (U := PyStr.ascii_tables) [] = Some [].
Proof. repeat split; vm_compute; reflexivity. Qed.

(** X22.  On an employee whose dates are [datetime]s,
    [termination_is_after_hire] is [True] exactly when the termination is at
    least one whole day (24 hours) after the hire, and
    [termination_is_after_birthdate] exactly when it is at least [18 * 365 =
    6570] whole days after the birth, which is a few days short of eighteen
    calendar years. *)
Theorem termination_checks_count_whole_days (e : EmployeesValidator.employee)
    (h t b : Z) :
  SalesValidator.field e "hire_date" = PDatetime h ->
  SalesValidator.field e "termination_date" = PDatetime t ->
  SalesValidator.field e "birthdate" = PDatetime b ->
  EmployeesValidator.termination_is_after_hire e
    = Some (Some (bool_decide (86400000000 <= t - h)%Z)) /\
  EmployeesValidator.termination_is_after_birthdate e
    = Some (Some (bool_decide (18 * 365 * 86400000000 <= t - b)%Z)).
Proof.
  intros Hh Ht Hb.
  unfold EmployeesValidator.termination_is_after_hire,
    EmployeesValidator.termination_is_after_birthdate.
  rewrite Hh, Ht, Hb. simpl. split; do 2 f_equal.
  - pose proof (SalesValidatorMoreFacts.floor_div_ge 1 (t - h) 86400000000) as Hk.
    unfold SalesValidator.days_of_us.
    destruct (1 <=? (t - h) / 86400000000)%Z eqn:E; symmetry.
    + apply Z.leb_le in E. apply bool_decide_eq_true. apply Hk in E; lia.
    + apply Z.leb_gt in E. apply bool_decide_eq_false. intros H.
      assert (1 <= (t - h) / 86400000000)%Z by (apply Hk; lia). lia.
  - pose proof (SalesValidatorMoreFacts.days_years_ge 18 (t - b)) as Hk.
    destruct (18 <=? SalesValidator.days_of_us (t - b) / 365)%Z eqn:E; symmetry.
    + apply Z.leb_le in E. apply bool_decide_eq_true. apply Hk in E. lia.
    + apply Z.leb_gt in E. apply bool_decide_eq_false. intros H.
      assert (18 <= SalesValidator.days_of_us (t - b) / 365)%Z by (apply Hk; lia). lia.
Qed.

(** X22 on an employee born 2000-01-01, hired 2017-12-27 at noon and
    terminated 2017-12-28 at 11:00, aged 17: the termination is not after the
    hire (23 hours), and it is after the birthdate (6571 days). *)
Lemma termination_checks_count_whole_days_witness :
  EmployeesValidator.termination_is_after_hire
    {[ "birthdate" := PDatetime (10957 * 86400000000);
       "hire_date" := PDatetime (17527 * 86400000000 + 12 * 3600000000);
       "termination_date" := PDatetime (17528 * 86400000000 + 11 * 3600000000) ]}
    = Some (Some false) /\
  EmployeesValidator.termination_is_after_birthdate
    {[ "birthdate" := PDatetime (10957 * 86400000000);
       "hire_date" := PDatetime (17527 * 86400000000 + 12 * 3600000000);
       "termination_date" := PDatetime (17528 * 86400000000 + 11 * 3600000000) ]}
    = Some (Some true).
Proof.
  apply (termination_checks_count_whole_days
           {[ "birthdate" := PDatetime (10957 * 86400000000);
              "hire_date" := PDatetime (17527 * 86400000000 + 12 * 3600000000);
              "termination_date" := PDatetime (17528 * 86400000000 + 11 * 3600000000) ]}
           (17527 * 86400000000 + 12 * 3600000000)
           (17528 * 86400000000 + 11 * 3600000000)
           (10957 * 86400000000)); vm_compute; reflexivity.
Defined.


